(** * A verification development for [.github/scripts/pr_review.py]

    The script reviews a pull request: it filters the changed files,
    maps file line numbers to positions inside each file's unified diff,
    asks a model for findings and posts them as one review.

    Conventions of the embedding.
    - Python [int] is [Z]; a [dict] with integer keys is [gmap Z Z], a
      [dict] with string keys is a [gmap] on [string]; Python lists are
      [list].
    - The answer of the model is a value of [json], of any shape that
      [json.loads] returns.  The loop of [run_review] reads it with
      [subscript] and [get_default], which raise as Python does on a
      value of the wrong shape.  Arithmetic on floats and [repr] are
      parameters of the run.
    - Python [str] is [string].  The embedding reads characters in the
      ASCII range: there a character is a decimal digit for the regular
      expression class [\d] exactly when it is one of 0..9, and it is
      white space for [str.strip] exactly when its code is 9..13, 28..31
      or 32.  Literals of the script that hold characters outside ASCII
      are kept as their UTF-8 bytes.
    - Code that can raise returns a [result]; [try]/[except] blocks are
      the handlers [try_except] and [try_except_json]; an exception that
      no handler takes ends the run. *)

From stdpp Require Import gmap strings list fin_maps sorting pretty.
From Stdlib Require Import ZArith Lia Ascii.

Local Open Scope Z_scope.

(** ** Python string primitives used by the script *)

Module PyStr.

Definition newline : ascii := "010"%char.
Definition nl : string := String newline EmptyString.

(** [s.startswith(prefix)] *)
Fixpoint startswith (prefix s : string) : bool :=
  match prefix, s with
  | EmptyString, _ => true
  | String a p, String b s' => if decide (a = b) then startswith p s' else false
  | String _ _, EmptyString => false
  end.

(** [s.split(sep)] for a separator of one character: never empty, the
    pieces between consecutive separators, empty pieces kept. *)
Fixpoint split (sep : ascii) (s : string) : list string :=
  match s with
  | EmptyString => [EmptyString]
  | String c s' =>
      if decide (c = sep) then EmptyString :: split sep s'
      else match split sep s' with
           | [] => [String c EmptyString]
           | piece :: pieces => String c piece :: pieces
           end
  end.

(** White space of [str.strip()] in the ASCII range. *)
Definition isspace (c : ascii) : bool :=
  let n := nat_of_ascii c in
  ((9 <=? n) && (n <=? 13) || (28 <=? n) && (n <=? 32))%nat.

Fixpoint lstrip (s : string) : string :=
  match s with
  | EmptyString => EmptyString
  | String c s' => if isspace c then lstrip s' else s
  end.

(** [rstrip] drops the trailing run of white space: a character stays
    when it is not white space or when something stays after it. *)
Fixpoint rstrip (s : string) : string :=
  match s with
  | EmptyString => EmptyString
  | String c s' =>
      match rstrip s' with
      | EmptyString => if isspace c then EmptyString else String c EmptyString
      | rest => String c rest
      end
  end.

(** [s.strip()] *)
Definition strip (s : string) : string := rstrip (lstrip s).

(** Truthiness of a string: the empty string is false. *)
Definition truthy (s : string) : bool :=
  match s with EmptyString => false | String _ _ => true end.

(** The class [\d]. *)
Definition isdigit (c : ascii) : bool :=
  let n := nat_of_ascii c in ((48 <=? n) && (n <=? 57))%nat.

(** The longest run of digits at the front of [s], and what follows. *)
Fixpoint span_digits (s : string) : string * string :=
  match s with
  | EmptyString => (EmptyString, EmptyString)
  | String c s' =>
      if isdigit c
      then let '(ds, rest) := span_digits s' in (String c ds, rest)
      else (EmptyString, s)
  end.

(** Drop [prefix] from the front of [s], if it is there. *)
Fixpoint eat (prefix s : string) : option string :=
  match prefix, s with
  | EmptyString, _ => Some s
  | String a p, String b s' => if decide (a = b) then eat p s' else None
  | String _ _, EmptyString => None
  end.

(** [int(ds)] for a string of decimal digits. *)
Definition digit_value (c : ascii) : Z := Z.of_nat (nat_of_ascii c) - 48.

Fixpoint int_acc (acc : Z) (ds : string) : Z :=
  match ds with
  | EmptyString => acc
  | String c ds' => int_acc (10 * acc + digit_value c) ds'
  end.

Definition int (ds : string) : Z := int_acc 0 ds.

(** [", ".join]-style joining with an arbitrary separator. *)
Fixpoint join (sep : string) (l : list string) : string :=
  match l with
  | [] => EmptyString
  | [s] => s
  | s :: l' => s +:+ sep +:+ join sep l'
  end.

End PyStr.

(** ** The patch position mapper *)

Module Mapper.
Import PyStr.

(** The pattern of the hunk header tried at the front of [s]: the four
    characters at-sign, at-sign, space, minus; one or more digits; an
    optional comma; any number of digits; a space and a plus; group 1,
    one or more digits; an optional comma; group 2, any number of
    digits.  The result is group 1.  The pattern leaves no choice: a
    run of digits must be followed by a character that is no digit, so
    the greedy runs are the only way to match, and the two items after
    group 1 match the empty string when nothing else. *)
Definition match_header_at (s : string) : option string :=
  s1 ← eat "@@ -" s;
  let '(old_start, s2) := span_digits s1 in
  if truthy old_start then
    let s3 := default s2 (eat "," s2) in
    let '(_, s4) := span_digits s3 in
    s5 ← eat " +" s4;
    let '(new_start, _) := span_digits s5 in
    if truthy new_start then Some new_start else None
  else None.

(** [re.search(pattern, line)]: the leftmost place where the pattern
    matches; the result is group 1 of that match. *)
Fixpoint re_search (line : string) : option string :=
  match match_header_at line with
  | Some g => Some g
  | None =>
      match line with
      | EmptyString => None
      | String _ line' => re_search line'
      end
  end.

(** The local variables of the loop in [calculate_line_positions]. *)
Record Scan := mkScan {
  positions : gmap Z Z;
  position : Z;
  current_line : Z;
  in_hunk : bool
}.

Definition scan_init : Scan :=
  {| positions := ∅; position := 0; current_line := 0; in_hunk := false |}.

(** The test at the top of the loop body: the line starts with two
    at-signs and the pattern is found in it; the result is
    [int(match.group(1))]. *)
Definition hunk_header (line : string) : option Z :=
  if startswith "@@" line then int <$> re_search line else None.

(** One iteration of [for line in lines]. *)
Definition scan_line (st : Scan) (line : string) : Scan :=
  let in_hunk1 := startswith "@@" line || in_hunk st in
  match hunk_header line with
  | Some new_start =>
      (* current_line = int(match.group(1)); position += 1; continue *)
      {| positions := positions st; position := position st + 1;
         current_line := new_start; in_hunk := in_hunk1 |}
  | None =>
      if negb in_hunk1 then
        {| positions := positions st; position := position st;
           current_line := current_line st; in_hunk := in_hunk1 |}
      else
        let position1 := position st + 1 in
        if negb (startswith "-" line) then
          {| positions := <[current_line st := position1]> (positions st);
             position := position1;
             current_line := current_line st + 1; in_hunk := in_hunk1 |}
        else
          {| positions := positions st; position := position1;
             current_line := current_line st; in_hunk := in_hunk1 |}
  end.

Definition scan_lines (st : Scan) (lines : list string) : Scan :=
  foldl scan_line st lines.

Definition calculate_line_positions (patch : string) : gmap Z Z :=
  positions (scan_lines scan_init (split newline patch)).

(** [sorted(positions.keys())] *)
Definition sorted_keys (positions : gmap Z Z) : list Z :=
  merge_sort Z.le (elements (dom positions)).

(** The loop of [min(iterable, key=...)] after its first item: a later
    item replaces the best one only when its key is strictly smaller,
    so the first of several minimal items wins. *)
Fixpoint min_from (key : Z → Z) (best : Z) (l : list Z) : Z :=
  match l with
  | [] => best
  | x :: l' =>
      if key x <? key best then min_from key x l' else min_from key best l'
  end.

Definition find_closest_line
    (target_line : Z) (positions : gmap Z Z) (max_distance : Z) : option Z :=
  match positions !! target_line with
  | Some _ => Some target_line
  | None =>
      match sorted_keys positions with
      | [] => None
      | first :: others =>
          let closest_line :=
            min_from (λ x, Z.abs (x - target_line)) first others in
          if Z.abs (closest_line - target_line) <=? max_distance
          then Some closest_line
          else None
      end
  end.

(** A line as a unified diff has it: the lines of a hunk start with a
    space, a plus, a minus or a backslash, so a line that starts with
    two at-signs is a hunk header, one in which the pattern is found. *)
Definition diff_line (line : string) : Prop :=
  startswith "@@" line = true → is_Some (hunk_header line).

(** What the specification asks of the result: the key of [M] nearest
    to [L], the smaller one of two keys at the same distance. *)
Definition nearest (L : Z) (M : gmap Z Z) (k : Z) : Prop :=
  k ∈ dom M
  ∧ ∀ k', k' ∈ dom M →
      Z.abs (k - L) ≤ Z.abs (k' - L)
      ∧ (Z.abs (k' - L) = Z.abs (k - L) → k ≤ k').

End Mapper.

(** ** The file filter *)

Module Filter.
Import PyStr.

Record FileFilterConfig := mkFilter {
  whitelist_patterns : list string;
  blacklist_patterns : list string
}.

(** [os.getenv(name, default)] over an environment. *)
Definition getenv (env : gmap string string) (name dflt : string) : string :=
  default dflt (env !! name).

(** [[p.strip() for p in raw.split(',') if p.strip()]] *)
Definition clean (raw : string) : list string :=
  strip <$> List.filter (λ p, truthy (strip p)) (split "," raw).

Definition from_env (env : gmap string string) : FileFilterConfig :=
  let whitelist := clean (getenv env "PR_REVIEW_WHITELIST" EmptyString) in
  let blacklist := clean (getenv env "PR_REVIEW_BLACKLIST" EmptyString) in
  let whitelist := match whitelist with [] => ["*"] | _ => whitelist end in
  {| whitelist_patterns := whitelist; blacklist_patterns := blacklist |}.

Section Matching.
(** [fnmatch.fnmatch] of the Python library, [fnmatch filename pattern]. *)
Variable fnmatch : string → string → bool.

(** Each [for] loop returns at its first matching pattern. *)
Definition should_review_file (self : FileFilterConfig) (filename : string) : bool :=
  if existsb (fnmatch filename) (blacklist_patterns self) then false
  else if existsb (fnmatch filename) (whitelist_patterns self) then true
  else false.
End Matching.

(** What [fnmatch] does for a pattern made of literal characters, the
    star (any run of characters) and the question mark (any one
    character); patterns with an opening bracket are not covered. *)
Fixpoint glob (pattern : string) : string → bool :=
  match pattern with
  | EmptyString => λ name, negb (truthy name)
  | String c pattern' =>
      if decide (c = "*"%char) then
        fix star (name : string) : bool :=
          glob pattern' name
          || match name with
             | EmptyString => false
             | String _ name' => star name'
             end
      else λ name,
        match name with
        | EmptyString => false
        | String d name' =>
            (bool_decide (c = "?"%char) || bool_decide (c = d)) && glob pattern' name'
        end
  end.

Definition fnmatch_glob (filename pattern : string) : bool := glob pattern filename.

End Filter.

(** ** Exceptions *)

Module Exn.

(** The exceptions of the script: the one that [json.loads] raises on
    a text that is no JSON, the three that the loop of [run_review]
    raises on a value of the wrong shape, and any other. *)
Inductive exn : Type :=
| JSONDecodeError (msg : string)
| KeyError (key : string)
| TypeError (msg : string)
| AttributeError (msg : string)
| Exception (msg : string).

Inductive result (A : Type) : Type :=
| Ok (a : A)
| Raise (e : exn).
Arguments Ok {A} a.
Arguments Raise {A} e.

Definition bind {A B} (m : result A) (k : A → result B) : result B :=
  match m with
  | Ok a => k a
  | Raise e => Raise e
  end.

(** [try: body  except Exception as e: handler] *)
Definition try_except {A} (body : result A) (handler : exn → result A) : result A :=
  match body with
  | Ok a => Ok a
  | Raise e => handler e
  end.

(** [try: body  except json.JSONDecodeError as e: handler] *)
Definition try_except_json {A} (body : result A) (handler : string → result A) : result A :=
  match body with
  | Raise (JSONDecodeError msg) => handler msg
  | other => other
  end.

Global Instance result_bind : MBind result := λ A B k m, bind m k.
Global Instance result_ret : MRet result := @Ok.

(** A [for] loop whose body can raise. *)
Fixpoint for_each {S A} (body : S → A → result S) (st : S) (l : list A) : result S :=
  match l with
  | [] => Ok st
  | x :: l' => st' ← body st x; for_each body st' l'
  end.

End Exn.


(** ** The reviewer *)

Module Reviewer.
Import PyStr Exn.

(** A value returned by [json.loads]: [None], a boolean, an integer, a
    float, a string, a list of values or a dictionary with string keys.
    A float is kept as the literal it was decoded from; the script does
    no arithmetic on it but through [find_closest_line]. *)
#[warnings="-register-all"] Inductive json : Type :=
| JNull
| JBool (b : bool)
| JInt (n : Z)
| JFloat (literal : string)
| JStr (s : string)
| JList (items : list json)
| JDict (members : gmap string json).

Definition isinstance_list (v : json) : bool :=
  match v with JList _ => true | _ => false end.

Definition list_items (v : json) : list json :=
  match v with JList items => items | _ => [] end.

(** [type(v).__name__] *)
Definition type_name (v : json) : string :=
  match v with
  | JNull => "NoneType"
  | JBool _ => "bool"
  | JInt _ => "int"
  | JFloat _ => "float"
  | JStr _ => "str"
  | JList _ => "list"
  | JDict _ => "dict"
  end.

(** [v[key]] with a string for [key]: the value under the key of a
    dictionary, [KeyError] when the key is absent, [TypeError] on every
    other value (a list and a string take integer indices, the others
    take none). *)
Definition subscript (v : json) (key : string) : result json :=
  match v with
  | JDict members =>
      match members !! key with
      | Some x => Ok x
      | None => Raise (KeyError key)
      end
  | JList _ => Raise (TypeError "list indices must be integers or slices, not str")
  | JStr _ => Raise (TypeError "string indices must be integers, not 'str'")
  | _ => Raise (TypeError ("'" +:+ type_name v +:+ "' object is not subscriptable"))
  end.

(** [v.get(key, default)]: only a dictionary has the method. *)
Definition get_default (v : json) (key : string) (default_value : json) : result json :=
  match v with
  | JDict members => Ok (default default_value (members !! key))
  | _ => Raise (AttributeError
                  ("'" +:+ type_name v +:+ "' object has no attribute 'get'"))
  end.

Section Client.
(** The fixed instructions of the prompt, up to the file path. *)
Variable instructions : string.
(** [self.claude.messages.create(...)] followed by
    [response.content[0].text]: the prompt gives a text or raises. *)
Variable messages_create : string → result string.
(** [json.loads] *)
Variable json_loads : string → result json.

Definition fence : string := "```".

Definition prompt (code file_path : string) : string :=
  instructions +:+ file_path +:+ ":" +:+ nl +:+ nl
    +:+ fence +:+ nl +:+ code +:+ nl +:+ fence.

Definition review_code (code file_path : string) : result (list json) :=
  try_except
    (text ← messages_create (prompt code file_path);
     try_except_json
       (review_comments ← json_loads text;
        if negb (isinstance_list review_comments) then Ok []
        else Ok (list_items review_comments))
       (λ _, Ok []))
    (λ _, Ok []).
End Client.

End Reviewer.

(** ** The review orchestrator *)

Module Orchestrator.
Import PyStr Exn Reviewer.

(** A changed file of the pull request; [patch] is absent for a file
    without a textual diff. *)
Record File := mkFile {
  filename : string;
  status : string;
  patch : option string
}.

(** A review comment that is already on the pull request; [position]
    is absent on a comment whose line left the diff. *)
Record ReviewComment := mkReviewComment {
  rc_path : string;
  rc_position : option Z;
  rc_body : string
}.

(** An item of [draft_review_comments]. *)
Record Draft := mkDraft {
  path : string;
  position : Z;
  body : string
}.

(** The arguments of one call of [create_review]. *)
Record Review := mkReview {
  review_comments : list Draft;
  review_body : string;
  review_event : string
}.

(** The four lists that [run_review] fills. *)
Record Run := mkRun {
  draft_review_comments : list Draft;
  general_comments : list string;
  skipped_files : list string;
  reviewed_files : list string
}.

Definition run_init : Run :=
  {| draft_review_comments := []; general_comments := [];
     skipped_files := []; reviewed_files := [] |}.

(** [str(x)] for an integer or [None]. *)
Definition str_position (p : option Z) : string :=
  match p with
  | Some n => pretty n
  | None => "None"
  end.

Definition get_existing_comments (comments : list ReviewComment) : gmap string string :=
  foldl (λ existing c,
           let key := rc_path c +:+ ":" +:+ str_position (rc_position c) in
           <[key := rc_body c]> existing)
        ∅ comments.

(** [d[k]] on a dictionary with integer keys. *)
Definition getitem (d : gmap Z Z) (k : Z) : result Z :=
  match d !! k with
  | Some v => Ok v
  | None => Raise (KeyError (pretty k))
  end.

(** The key under which an inline comment is looked up. *)
Definition comment_key (file_name : string) (position : Z) : string :=
  file_name +:+ ":" +:+ pretty position.

(** [if file.patch:] is taken for a patch that is present and not empty. *)
Definition truthy_patch (file : File) : option string :=
  match patch file with
  | Some p => if truthy p then Some p else None
  | None => None
  end.

(** The comment that one finding leads to: an item of the inline batch
    or the body of a general comment. *)
Inductive Outcome : Type :=
| Inline (d : Draft)
| General (comment_body : string).

Definition inlines (os : list Outcome) : list Draft :=
  omap (λ o, match o with Inline d => Some d | General _ => None end) os.

Definition generals (os : list Outcome) : list string :=
  omap (λ o, match o with Inline _ => None | General b => Some b end) os.

(** A draft is new when its key is not among the existing comments. *)
Definition is_new (existing_comments : gmap string string) (d : Draft) : bool :=
  negb (bool_decide (is_Some (existing_comments !! comment_key (path d) (position d)))).

(** The lists of a run, each with more items at its end. *)
Definition extend (st : Run) (drafts : list Draft) (generals skipped reviewed : list string) : Run :=
  {| draft_review_comments := draft_review_comments st ++ drafts;
     general_comments := general_comments st ++ generals;
     skipped_files := skipped_files st ++ skipped;
     reviewed_files := reviewed_files st ++ reviewed |}.

(** A finding of the shape that the prompt asks for: an object with an
    integer under [line] and a value under [comment]. *)
Definition well_shaped (c : json) : Prop :=
  ∃ members n text,
    c = JDict members ∧ members !! "line" = Some (JInt n)
    ∧ members !! "comment" = Some text.

Section Run.
(** The collaborators of a run: the library's [fnmatch], the filter
    built at start-up, the content of a file at the head revision
    ([get_contents(...).decoded_content.decode('utf-8')], which can
    raise), the three parameters of [Reviewer.review_code], and two
    built-ins of Python that the embedding leaves open: [repr] on a
    float, a list or a dictionary, and [find_closest_line] on a float,
    whose result is the key it returns or is equal to. *)
Variable fnmatch : string → string → bool.
Variable file_filter : Filter.FileFilterConfig.
Variable get_contents : string → result string.
Variable instructions : string.
Variable messages_create : string → result string.
Variable json_loads : string → result json.
Variable repr : json → string.
Variable float_closest : string → gmap Z Z → Z → result (option Z).

(** A value in an f-string: [format(v, '')], which is [str(v)]. *)
Definition py_str (v : json) : string :=
  match v with
  | JStr s => s
  | JInt n => pretty n
  | JBool true => "True"
  | JBool false => "False"
  | JNull => "None"
  | JFloat _ | JList _ | JDict _ => repr v
  end.

(** [self.find_closest_line(line_num, line_positions)] on the value
    that [comment['line']] gave.  An integer goes through the function
    as written.  [True] and [False] are the integers 1 and 0, as keys
    of a dictionary and in a difference.  [None] and a string are no
    key, give no match when there is no key at all, and make the
    difference [x - target_line] raise otherwise.  A list and a
    dictionary cannot be hashed: the test [target_line in positions]
    raises. *)
Definition find_closest_line_of (target_line : json) (positions : gmap Z Z)
    (max_distance : Z) : result (option Z) :=
  match target_line with
  | JInt n => Ok (Mapper.find_closest_line n positions max_distance)
  | JBool b => Ok (Mapper.find_closest_line (Z.b2z b) positions max_distance)
  | JFloat literal => float_closest literal positions max_distance
  | JNull | JStr _ =>
      match Mapper.sorted_keys positions with
      | [] => Ok None
      | _ :: _ =>
          Raise (TypeError ("unsupported operand type(s) for -: 'int' and '"
                              +:+ type_name target_line +:+ "'"))
      end
  | JList _ | JDict _ =>
      Raise (TypeError ("unhashable type: '" +:+ type_name target_line +:+ "'"))
  end.

(** The f-string shared by both kinds of comment: the text under
    [comment], looked up first, and a suggestion block with the value
    under [suggestion], the empty string when the key is absent. *)
Definition suggestion_block (comment : json) : result string :=
  text ← subscript comment "comment";
  suggestion ← get_default comment "suggestion" (JStr EmptyString);
  Ok (py_str text +:+ nl +:+ nl +:+ fence +:+ "suggestion" +:+ nl
        +:+ py_str suggestion +:+ nl +:+ fence).

(** The f-string of a general comment: a header that names the file and
    the line as the finding gave it, then the shared text. *)
Definition general_body (file_name : string) (line_num comment : json) : result string :=
  block ← suggestion_block comment;
  Ok ("**In file " +:+ file_name +:+ ", line " +:+ py_str line_num
        +:+ ":**" +:+ nl +:+ nl +:+ block).

(** The body of [for comment in file_comments]. *)
Definition process_comment (existing_comments : gmap string string)
    (file : File) (st : Run) (comment : json) : result Run :=
  line_num ← subscript comment "line";
  match truthy_patch file with
  | Some p =>
      let line_positions := Mapper.calculate_line_positions p in
      mapped ← find_closest_line_of line_num line_positions 3;
      match mapped with
      | Some mapped_line =>
          position ← getitem line_positions mapped_line;
          comment_body ← suggestion_block comment;
          let key := comment_key (filename file) position in
          if bool_decide (is_Some (existing_comments !! key)) then Ok st
          else Ok {| draft_review_comments :=
                       draft_review_comments st ++
                         [ {| path := filename file; position := position;
                              body := comment_body |} ];
                     general_comments := general_comments st;
                     skipped_files := skipped_files st;
                     reviewed_files := reviewed_files st |}
      | None =>
          comment_body ← general_body (filename file) line_num comment;
          Ok {| draft_review_comments := draft_review_comments st;
                general_comments := general_comments st ++ [comment_body];
                skipped_files := skipped_files st;
                reviewed_files := reviewed_files st |}
      end
  | None => Ok st
  end.

(** The body of [for file in changed_files].  The map that the script
    computes here before it asks the reviewer is computed again for
    every finding in [process_comment], so only the test of the patch
    is kept at this place. *)
Definition process_file (existing_comments : gmap string string)
    (st : Run) (file : File) : result Run :=
  if bool_decide (status file = "removed") then Ok st
  else if negb (Filter.should_review_file fnmatch file_filter (filename file)) then
    Ok {| draft_review_comments := draft_review_comments st;
          general_comments := general_comments st;
          skipped_files := skipped_files st ++ [filename file];
          reviewed_files := reviewed_files st |}
  else
    let st1 :=
      {| draft_review_comments := draft_review_comments st;
         general_comments := general_comments st;
         skipped_files := skipped_files st;
         reviewed_files := reviewed_files st ++ [filename file] |} in
    match get_contents (filename file) with
    | Raise _ => Ok st1
    | Ok content =>
        match truthy_patch file with
        | None => Ok st1
        | Some _ =>
            file_comments ←
            review_code instructions messages_create json_loads
              content (filename file);
            for_each (process_comment existing_comments file) st1 file_comments
        end
    end.

(** [for filename in names: review_body += f"- {filename}\n"] *)
Definition add_bullets (review_body : string) (names : list string) : string :=
  foldl (λ acc name, acc +:+ "- " +:+ name +:+ nl) review_body names.

(** The text built in [review_body]. *)
Definition compose_body (st : Run) : string :=
  let b0 := "🤖 Code Review Summary:" +:+ nl +:+ nl in
  let b1 :=
    match reviewed_files st with
    | [] => b0
    | _ => add_bullets
             (b0 +:+ "Reviewed " +:+ pretty (length (reviewed_files st))
                 +:+ " files:" +:+ nl)
             (reviewed_files st)
    end in
  let b2 :=
    match skipped_files st with
    | [] => b1
    | _ => add_bullets
             (b1 +:+ nl +:+ "Skipped " +:+ pretty (length (skipped_files st))
                 +:+ " files based on filter configuration:" +:+ nl)
             (skipped_files st)
    end in
  let b3 :=
    match draft_review_comments st with
    | [] => b2 +:+ nl +:+ "✨ Great job! The code looks clean and well-written."
    | _ => b2 +:+ nl +:+ "Found " +:+ pretty (length (draft_review_comments st))
              +:+ " suggestions for improvement."
    end in
  match general_comments st with
  | [] => b3
  | _ => b3 +:+ nl +:+ nl +:+ "### Additional Comments:" +:+ nl +:+ nl
            +:+ join (nl +:+ nl) (general_comments st)
  end.

Definition nonempty {A} (l : list A) : bool :=
  match l with [] => false | _ => true end.

(** The loop over the changed files. *)
Definition review_loop (changed_files : list File)
    (comments : list ReviewComment) : result Run :=
  for_each (process_file (get_existing_comments comments)) run_init changed_files.

(** The part of [run_review] after the loop: the calls of
    [create_review] it makes, one or none. *)
Definition submit (st : Run) : list Review :=
  if nonempty (draft_review_comments st) || nonempty (general_comments st)
     || nonempty (skipped_files st)
  then [ {| review_comments := draft_review_comments st;
            review_body := compose_body st;
            review_event := "COMMENT" |} ]
  else [].

(** [run_review] once [get_files] and [get_review_comments] have
    answered: the result is the list of calls of [create_review], or
    the exception that the loop raised and [run_review] raises again. *)
Definition run_review (changed_files : list File)
    (comments : list ReviewComment) : result (list Review) :=
  st ← review_loop changed_files comments;
  Ok (submit st).

(** *** The outcome of the loops in closed form

    The definitions below are not in the script: they name what its two
    loops compute, and [review_loop_closed] proves that they do. *)

(** The findings that reach the inner loop for one file. *)
Definition findings_of (file : File) : list json :=
  if bool_decide (status file = "removed") then []
  else if negb (Filter.should_review_file fnmatch file_filter (filename file)) then []
  else match get_contents (filename file), truthy_patch file with
       | Ok content, Some _ =>
           match review_code instructions messages_create json_loads
                   content (filename file) with
           | Ok file_comments => file_comments
           | Raise _ => []
           end
       | _, _ => []
       end.

(** What one finding leads to, or the exception it makes the loop
    raise; neither depends on the comments that exist nor on the lists
    collected so far. *)
Definition outcome (file : File) (p : string) (comment : json) : result Outcome :=
  line_num ← subscript comment "line";
  mapped ← find_closest_line_of line_num (Mapper.calculate_line_positions p) 3;
  match mapped with
  | Some mapped_line =>
      position ← getitem (Mapper.calculate_line_positions p) mapped_line;
      comment_body ← suggestion_block comment;
      Ok (Inline {| path := filename file; position := position;
                    body := comment_body |})
  | None =>
      comment_body ← general_body (filename file) line_num comment;
      Ok (General comment_body)
  end.

(** What an outcome adds to the lists of the run. *)
Definition record_outcome (existing_comments : gmap string string)
    (st : Run) (o : Outcome) : Run :=
  match o with
  | Inline d => if is_new existing_comments d then extend st [d] [] [] [] else st
  | General b => extend st [] [b] [] []
  end.

(** The outcomes of the findings of one file, in their order, or the
    first exception. *)
Definition file_outcomes (file : File) : result (list Outcome) :=
  match truthy_patch file with
  | Some p => mapM (outcome file p) (findings_of file)
  | None => Ok []
  end.

(** The outcomes of a run, file after file. *)
Definition run_outcomes (files : list File) : result (list Outcome) :=
  per_file ← mapM file_outcomes files;
  Ok (concat per_file).

(** The lines that [add_bullets] appends. *)
Definition bullets (names : list string) : string := add_bullets EmptyString names.

Definition passes_filter (file : File) : bool :=
  negb (bool_decide (status file = "removed"))
  && Filter.should_review_file fnmatch file_filter (filename file).

Definition fails_filter (file : File) : bool :=
  negb (bool_decide (status file = "removed"))
  && negb (Filter.should_review_file fnmatch file_filter (filename file)).

(** The final state of a loop over the files that led to the outcomes
    [os]. *)
Definition loop_result (files : list File) (comments : list ReviewComment)
    (os : list Outcome) : Run :=
  extend run_init
    (filter (λ d, is_new (get_existing_comments comments) d) (inlines os))
    (generals os)
    (filename <$> filter (λ f, fails_filter f) files)
    (filename <$> filter (λ f, passes_filter f) files).

End Run.

End Orchestrator.

(** ** Inputs of the scenarios *)

Module Scenario.
Import PyStr.

Definition lines (l : list string) : string := join nl l.

(** A hunk that adds one line to a file of three. *)
Definition patch_a : string :=
  lines ["@@ -1,3 +1,4 @@"; " line1"; "+line2"; " line3"; " line4"].

(** The diff git writes when a file of one line without a final newline
    gets another content, again without a final newline. *)
Definition patch_no_newline : string :=
  lines ["@@ -1 +1 @@"; "-a"; "\ No newline at end of file";
         "+b"; "\ No newline at end of file"].

(** A line that starts like a hunk header and is none. *)
Definition patch_malformed : string := "@@ bogus".

(** Two hunks, with a line before the first. *)
Definition patch_two_hunks : string :=
  lines ["diff --git a/f b/f"; "@@ -1,2 +1,2 @@"; " a"; "-b"; "+c";
         "@@ -10,2 +10,3 @@"; " x"; "+y"; " z"].

(** A run: the lock files are on the blacklist, one file cannot be
    fetched, one has no patch, one was removed. *)
Definition config : Filter.FileFilterConfig :=
  Filter.from_env {[ "PR_REVIEW_BLACKLIST" := "*.lock" ]}.

Definition contents (name : string) : Exn.result string :=
  if bool_decide (name = "gone.py") then Exn.Raise (Exn.Exception "404")
  else Exn.Ok "print(1)".

Definition task : string := "Review the code from ".

Definition answer (prompt : string) : Exn.result string := Exn.Ok "[...]".

(** Two findings of the shape the prompt asks for, the second without
    a suggestion, and one without the text. *)
Definition near_finding : Reviewer.json :=
  Reviewer.JDict {[ "line" := Reviewer.JInt 2;
                    "comment" := Reviewer.JStr "Use a constant.";
                    "suggestion" := Reviewer.JStr "X = 1" ]}.

Definition far_finding : Reviewer.json :=
  Reviewer.JDict {[ "line" := Reviewer.JInt 50;
                    "comment" := Reviewer.JStr "Dead code." ]}.

Definition bare_finding : Reviewer.json :=
  Reviewer.JDict {[ "line" := Reviewer.JInt 2 ]}.

(** [repr] and the float case of [find_closest_line], which no scenario
    reaches. *)
Definition no_repr (v : Reviewer.json) : string := "?".

Definition no_float (literal : string) (positions : gmap Z Z) (max_distance : Z)
    : Exn.result (option Z) :=
  Exn.Ok None.

Definition loads (text : string) : Exn.result Reviewer.json :=
  Exn.Ok (Reviewer.JList [near_finding; far_finding]).

Definition loads_bare (text : string) : Exn.result Reviewer.json :=
  Exn.Ok (Reviewer.JList [near_finding; bare_finding]).

Definition loads_fails (text : string) : Exn.result Reviewer.json :=
  Exn.Raise (Exn.JSONDecodeError "Expecting value").

Definition file_a : Orchestrator.File :=
  {| Orchestrator.filename := "a.py"; Orchestrator.status := "modified";
     Orchestrator.patch := Some patch_a |}.

Definition changed : list Orchestrator.File :=
  [ file_a;
    {| Orchestrator.filename := "package.lock"; Orchestrator.status := "modified";
       Orchestrator.patch := Some patch_a |};
    {| Orchestrator.filename := "gone.py"; Orchestrator.status := "added";
       Orchestrator.patch := Some patch_a |};
    {| Orchestrator.filename := "logo.py"; Orchestrator.status := "renamed";
       Orchestrator.patch := None |};
    {| Orchestrator.filename := "old.py"; Orchestrator.status := "removed";
       Orchestrator.patch := None |} ].

(** The comment of the first run, as the platform shows it afterwards. *)
Definition posted : list Orchestrator.ReviewComment :=
  [ {| Orchestrator.rc_path := "a.py"; Orchestrator.rc_position := Some 3;
       Orchestrator.rc_body := "Use a constant." |} ].

(** The texts and the lists of the first run over [changed], when no
    comment exists yet. *)
Definition near_body : string :=
  lines ["Use a constant."; EmptyString; "```suggestion"; "X = 1"; "```"].

Definition far_body : string :=
  lines ["**In file a.py, line 50:**"; EmptyString; "Dead code."; EmptyString;
         "```suggestion"; EmptyString; "```"].

Definition first_run : Orchestrator.Run :=
  {| Orchestrator.draft_review_comments :=
       [ {| Orchestrator.path := "a.py"; Orchestrator.position := 3;
            Orchestrator.body := near_body |} ];
     Orchestrator.general_comments := [far_body];
     Orchestrator.skipped_files := ["package.lock"];
     Orchestrator.reviewed_files := ["a.py"; "gone.py"; "logo.py"] |}.

Definition first_summary : string :=
  lines ["🤖 Code Review Summary:"; EmptyString;
         "Reviewed 3 files:"; "- a.py"; "- gone.py"; "- logo.py"; EmptyString;
         "Skipped 1 files based on filter configuration:"; "- package.lock";
         EmptyString;
         "Found 1 suggestions for improvement."; EmptyString;
         "### Additional Comments:"; EmptyString; far_body].

End Scenario.

(** ** Vocabulary of the further properties

    These definitions are not in the script; the properties of the last
    part of the file are stated with them. *)

Module Vocabulary.
Import PyStr.

(** The lines of a patch that the loop counts: from the first line that
    starts with two at-signs on. *)
Fixpoint counted_lines (lines : list string) : list string :=
  match lines with
  | [] => []
  | line :: rest =>
      if startswith "@@" line then lines else counted_lines rest
  end.

(** The number of lines among the first [j] of [body] that are no
    removals. *)
Definition kept_before (j : nat) (body : list string) : nat :=
  length (filter (λ l, startswith "-" l = false) (take j body)).

(** What the loop keeps true, [seen] being the counted lines read so
    far: the counter is their number; every entry has a line number that
    is not negative and a position that is the place, counted from 1, of
    a seen line which is no removal and no recognised header; no two
    entries share a position. *)
Definition scan_inv (seen : list string) (st : Mapper.Scan) : Prop :=
  Mapper.position st = Z.of_nat (length seen)
  ∧ 0 ≤ Mapper.current_line st
  ∧ (∀ L v, Mapper.positions st !! L = Some v →
       0 ≤ L ∧ 1 ≤ v ≤ Mapper.position st
       ∧ ∃ line, seen !! Z.to_nat (v - 1) = Some line
           ∧ startswith "-" line = false ∧ Mapper.hunk_header line = None)
  ∧ (∀ L1 L2 v, Mapper.positions st !! L1 = Some v →
       Mapper.positions st !! L2 = Some v → L1 = L2).

(** The part of a hunk header after the start line: nothing, or a comma
    and the number of lines. *)
Definition len_text (len : option N) : string :=
  match len with
  | Some n => "," +:+ pretty n
  | None => EmptyString
  end.

(** A hunk header as git writes it: old start and length, new start and
    length, and the heading that may follow the closing at-signs. *)
Definition hunk_header_text (old_start : N) (old_len : option N)
    (new_start : N) (new_len : option N) (heading : string) : string :=
  "@@ -" +:+ pretty old_start +:+ len_text old_len +:+ " +"
    +:+ pretty new_start +:+ len_text new_len +:+ " @@" +:+ heading.

(** A string of decimal digits. *)
Fixpoint all_digits (s : string) : bool :=
  match s with
  | EmptyString => true
  | String c s' => isdigit c && all_digits s'
  end.

(** A string that does not begin with a digit. *)
Definition stops_digits (s : string) : Prop :=
  match s with
  | EmptyString => True
  | String c _ => isdigit c = false
  end.

(** A string without the character [c]. *)
Fixpoint lacks (c : ascii) (s : string) : bool :=
  match s with
  | EmptyString => true
  | String d s' => negb (bool_decide (d = c)) && lacks c s'
  end.

End Vocabulary.

(** * Theorems *)

Import PyStr Exn.

(** ** The patch position mapper *)

Section MapperFacts.
Import Mapper.

Lemma startswith_minus_not_opening (line : string) :
  startswith "-" line = true → startswith "@@" line = false.
Proof.
  destruct line as [|c line]; simpl; [done|].
  repeat case_decide; simplify_eq; done.
Qed.

Lemma hunk_header_opening (line : string) (n : Z) :
  hunk_header line = Some n → startswith "@@" line = true.
Proof. unfold hunk_header. by destruct (startswith "@@" line). Qed.

Lemma hunk_header_not_opening (line : string) :
  startswith "@@" line = false → hunk_header line = None.
Proof. unfold hunk_header. by intros ->. Qed.

(** A line outside any hunk changes nothing. *)
Lemma scan_line_outside (st : Scan) (line : string) :
  in_hunk st = false → startswith "@@" line = false → scan_line st line = st.
Proof.
  intros Hin Hopen. unfold scan_line.
  rewrite (hunk_header_not_opening _ Hopen), Hopen, Hin. simpl.
  destruct st; simpl in *; by subst.
Qed.

(** A header line sets [current_line] and counts one position. *)
Lemma scan_line_header (st : Scan) (line : string) (new_start : Z) :
  hunk_header line = Some new_start →
  scan_line st line =
    {| positions := positions st; position := position st + 1;
       current_line := new_start; in_hunk := true |}.
Proof.
  intros Hh. unfold scan_line. rewrite Hh.
  by rewrite (hunk_header_opening _ _ Hh).
Qed.

(** A removal inside a hunk counts one position and nothing else. *)
Lemma scan_line_removal (st : Scan) (line : string) :
  startswith "-" line = true →
  positions (scan_line st line) = positions st
  ∧ current_line (scan_line st line) = current_line st
  ∧ in_hunk (scan_line st line) = in_hunk st.
Proof.
  intros Hm. pose proof (startswith_minus_not_opening _ Hm) as Hopen.
  unfold scan_line. rewrite (hunk_header_not_opening _ Hopen), Hopen, Hm. simpl.
  by destruct (in_hunk st).
Qed.

(** A context line or an addition inside a hunk gets the next position
    and the next line number. *)
Lemma scan_line_kept (st : Scan) (line : string) :
  in_hunk st = true → hunk_header line = None → startswith "-" line = false →
  scan_line st line =
    {| positions := <[current_line st := position st + 1]> (positions st);
       position := position st + 1;
       current_line := current_line st + 1; in_hunk := true |}.
Proof.
  intros Hin Hh Hm. unfold scan_line. rewrite Hh, Hin, Hm.
  by rewrite orb_true_r.
Qed.

Lemma scan_line_in_hunk (st : Scan) (line : string) :
  in_hunk st = true →
  in_hunk (scan_line st line) = true
  ∧ position (scan_line st line) = position st + 1.
Proof.
  intros Hin. unfold scan_line. rewrite Hin, orb_true_r.
  destruct (hunk_header line), (startswith "-" line); done.
Qed.

Lemma scan_line_position_step (st : Scan) (line : string) :
  position st ≤ position (scan_line st line) ≤ position st + 1.
Proof.
  unfold scan_line.
  destruct (hunk_header line), (startswith "@@" line || in_hunk st),
    (startswith "-" line); simpl; lia.
Qed.

Lemma scan_lines_app (st : Scan) (l1 l2 : list string) :
  scan_lines st (l1 ++ l2) = scan_lines (scan_lines st l1) l2.
Proof. unfold scan_lines. apply foldl_app. Qed.

Lemma scan_lines_outside (st : Scan) (pre : list string) :
  in_hunk st = false →
  Forall (λ line, startswith "@@" line = false) pre →
  scan_lines st pre = st.
Proof.
  intros Hin Hpre. induction Hpre as [|line pre Hline _ IH]; [done|].
  unfold scan_lines in *. simpl. by rewrite scan_line_outside.
Qed.

Lemma scan_lines_in_hunk (st : Scan) (ls : list string) :
  in_hunk st = true →
  in_hunk (scan_lines st ls) = true
  ∧ position (scan_lines st ls) = position st + Z.of_nat (length ls).
Proof.
  revert st. induction ls as [|line ls IH]; intros st Hin.
  - simpl. split; [done|lia].
  - destruct (scan_line_in_hunk st line Hin) as [Hin' Hpos].
    destruct (IH _ Hin') as [IH1 IH2]. unfold scan_lines in *. simpl.
    split; [done|]. rewrite IH2, Hpos. simpl length. lia.
Qed.

Lemma scan_lines_position_mono (st : Scan) (ls : list string) :
  position st ≤ position (scan_lines st ls).
Proof.
  revert st. induction ls as [|line ls IH]; intros st; [simpl; lia|].
  unfold scan_lines in *. simpl.
  pose proof (scan_line_position_step st line). specialize (IH (scan_line st line)). lia.
Qed.

End MapperFacts.

Section MapperClaims.
Import Mapper.

(** C1.  For the patch of scenario A, [calculate_line_positions] returns
    exactly the map 1 -> 2, 2 -> 3, 3 -> 4, 4 -> 5: the hunk header is
    recognised with new start 1 and takes position 1 without an entry,
    and the four lines after it, context or added, get the positions 2
    to 5 under the line numbers 1 to 4. *)
Theorem scenario_a_positions :
  calculate_line_positions Scenario.patch_a = {[ 1 := 2; 2 := 3; 3 := 4; 4 := 5 ]}
  ∧ hunk_header "@@ -1,3 +1,4 @@" = Some 1
  ∧ scan_line scan_init "@@ -1,3 +1,4 @@" =
      {| positions := ∅; position := 1; current_line := 1; in_hunk := true |}.
Proof. vm_compute. done. Qed.

(** C2, evaluated where the script breaks it.  In the diff of a one-line
    file without final newline, the two marker lines that start with a
    backslash are taken for context lines: the map gets the keys 2 and
    3, which are no lines of the new file (its only line is line 1), and
    line 1 is sent to position 3, the marker that follows the removed
    line, while the added line sits at position 4. *)
Theorem no_newline_marker_is_mapped :
  calculate_line_positions Scenario.patch_no_newline = {[ 1 := 3; 2 := 4; 3 := 5 ]}
  ∧ split newline Scenario.patch_no_newline !! 0%nat = Some "@@ -1 +1 @@"
  ∧ split newline Scenario.patch_no_newline !! 1%nat = Some "-a"
  ∧ split newline Scenario.patch_no_newline !! 2%nat = Some "\ No newline at end of file"
  ∧ split newline Scenario.patch_no_newline !! 3%nat = Some "+b".
Proof. vm_compute. done. Qed.

(** The part of C2 about removals holds for every line and every state
    of the loop: a line that starts with a minus sign adds no entry and
    leaves the line counter alone. *)
Lemma removal_gets_no_entry (st : Scan) (line : string) :
  startswith "-" line = true →
  positions (scan_line st line) = positions st
  ∧ current_line (scan_line st line) = current_line st.
Proof. intros Hm. destruct (scan_line_removal st line Hm) as (? & ? & _). done. Qed.

(** A line that starts with two at-signs and is no hunk header is no
    line of a diff; the loop would count it: the patch made of the one
    line [@@ bogus] gives an entry for line 0. *)
Lemma malformed_header_is_counted :
  hunk_header "@@ bogus" = None
  ∧ ¬ diff_line "@@ bogus"
  ∧ calculate_line_positions Scenario.patch_malformed = {[ 0 := 1 ]}.
Proof.
  split_and!; [done| |by vm_compute].
  intros H. by destruct (H eq_refl).
Qed.

Lemma diff_line_outside (pre : list string) :
  Forall diff_line pre → Forall (λ l, hunk_header l = None) pre →
  Forall (λ l, startswith "@@" l = false) pre.
Proof.
  intros Hd Hn. induction Hd as [|l pre Hl _ IH]; [done|].
  apply Forall_cons in Hn as [Hnone Hn]. constructor; [|by apply IH].
  destruct (startswith "@@" l) eqn:Ho; [|done].
  destruct (Hl Ho) as [n Hn']. congruence.
Qed.

(** C5.  On the lines of a diff, where a line that starts with two
    at-signs is a hunk header: the lines before the first hunk header
    change nothing, they are not counted, and a patch without a hunk
    header gives the empty map.  A hunk header sets only the line
    counter, to the new start, and takes one position; the map is left
    as it is.  From the first header on every line takes exactly one
    position, so the position counter never decreases and, after a
    patch whose first header follows the lines [pre], it is the number
    of lines from that header on. *)
Theorem counting_starts_at_first_hunk_header
    (pre rest : list string) (st : Scan) (line : string) (patch : string) :
  (Forall diff_line pre → Forall (λ l, hunk_header l = None) pre →
     scan_lines scan_init pre = scan_init
     ∧ scan_lines scan_init (pre ++ rest) = scan_lines scan_init rest)
  ∧ (Forall diff_line (split newline patch) →
     Forall (λ l, hunk_header l = None) (split newline patch) →
     calculate_line_positions patch = ∅)
  ∧ (∀ new_start, hunk_header line = Some new_start →
     scan_line st line =
       {| positions := positions st; position := position st + 1;
          current_line := new_start; in_hunk := true |})
  ∧ (in_hunk st = true →
     position (scan_lines st rest) = position st + Z.of_nat (length rest))
  ∧ position st ≤ position (scan_lines st rest)
  ∧ (Forall diff_line pre → Forall (λ l, hunk_header l = None) pre →
     is_Some (hunk_header line) →
     position (scan_lines scan_init (pre ++ line :: rest))
     = 1 + Z.of_nat (length rest)).
Proof.
  split_and!.
  - intros Hd Hn. pose proof (diff_line_outside pre Hd Hn) as Hpre.
    rewrite scan_lines_app.
    by rewrite (scan_lines_outside scan_init pre).
  - intros Hd Hn. pose proof (diff_line_outside _ Hd Hn) as Hall.
    unfold calculate_line_positions.
    by rewrite (scan_lines_outside scan_init _ eq_refl Hall).
  - intros new_start. apply scan_line_header.
  - intros Hin. by apply scan_lines_in_hunk.
  - apply scan_lines_position_mono.
  - intros Hd Hn [n Hh]. pose proof (diff_line_outside pre Hd Hn) as Hpre.
    rewrite scan_lines_app, (scan_lines_outside scan_init pre) by done.
    change (scan_lines scan_init (line :: rest))
      with (scan_lines (scan_line scan_init line) rest).
    rewrite (scan_line_header _ _ _ Hh).
    destruct (scan_lines_in_hunk
                {| positions := positions scan_init;
                   position := position scan_init + 1;
                   current_line := n; in_hunk := true |} rest eq_refl) as [_ ->].
    done.
Qed.

Lemma counting_starts_at_first_hunk_header_witness :
  let st := {| positions := {[ 1 := 2; 2 := 4 ]}; position := 4;
               current_line := 3; in_hunk := true |} in
  let rest := [" x"; "+y"; " z"] in
  (scan_lines scan_init ["diff --git a/f b/f"] = scan_init
   ∧ scan_lines scan_init (["diff --git a/f b/f"] ++ rest) = scan_lines scan_init rest)
  ∧ calculate_line_positions "no hunk here" = ∅
  ∧ scan_line st "@@ -10,2 +10,3 @@" =
      {| positions := {[ 1 := 2; 2 := 4 ]}; position := 5;
         current_line := 10; in_hunk := true |}
  ∧ position (scan_lines st rest) = 7
  ∧ 4 ≤ position (scan_lines st rest)
  ∧ position (scan_lines scan_init
                (["diff --git a/f b/f"] ++ "@@ -10,2 +10,3 @@" :: rest)) = 4.
Proof.
  intros st rest.
  destruct (counting_starts_at_first_hunk_header
              ["diff --git a/f b/f"] rest st "@@ -10,2 +10,3 @@" "no hunk here")
    as (H1 & H2 & H3 & H4 & H5 & H6).
  assert (Hd : ∀ l, startswith "@@" l = false → diff_line l).
  { intros l Hl Ho. congruence. }
  split; [apply H1; repeat constructor; by apply Hd|].
  split; [apply H2; repeat constructor; by apply Hd|].
  split; [apply (H3 10); reflexivity|].
  split; [apply (H4 eq_refl)|].
  split; [apply H5|].
  apply H6; repeat constructor; [by apply Hd|]. by eexists.
Defined.

End MapperClaims.

(** ** The nearest line *)

Section ClosestLine.
Import Mapper.

(** [min_from] returns the first item of least key: the items before it
    have a strictly larger key, the items after it none smaller. *)
Lemma min_from_first (key : Z → Z) (l : list Z) (best : Z) :
  ∃ l1 l2, best :: l = l1 ++ min_from key best l :: l2
    ∧ Forall (λ y, key (min_from key best l) < key y) l1
    ∧ Forall (λ y, key (min_from key best l) ≤ key y) l2.
Proof.
  revert best. induction l as [|x l IH]; intros best.
  - exists [], []. simpl. by repeat constructor.
  - simpl. destruct (Z.ltb_spec (key x) (key best)) as [Hlt|Hge].
    + destruct (IH x) as (l1 & l2 & Heq & H1 & H2).
      generalize dependent (min_from key x l). intros r Heq H1 H2.
      exists (best :: l1), l2. split_and!; [simpl; by rewrite <- Heq| |done].
      constructor; [|done].
      destruct l1 as [|y l1]; simplify_eq/=; [lia|].
      apply Forall_cons in H1 as [H1 _]. lia.
    + destruct (IH best) as (l1 & l2 & Heq & H1 & H2).
      generalize dependent (min_from key best l). intros r Heq H1 H2.
      destruct l1 as [|y l1]; simplify_eq/=.
      * exists [], (x :: l2). split_and!; [done|constructor|].
        constructor; [lia|done].
      * exists (y :: x :: l1), l2. apply Forall_cons in H1 as [H1 H1'].
        split_and!; [done| |done].
        repeat constructor; [done|lia|done].
Qed.

Lemma sorted_keys_elem_of (M : gmap Z Z) (k : Z) :
  k ∈ sorted_keys M ↔ k ∈ dom M.
Proof.
  unfold sorted_keys. rewrite merge_sort_Permutation. apply elem_of_elements.
Qed.

Lemma sorted_keys_sorted (M : gmap Z Z) : StronglySorted Z.le (sorted_keys M).
Proof. apply StronglySorted_merge_sort; apply _. Qed.

Lemma nearest_unique (L : Z) (M : gmap Z Z) (k1 k2 : Z) :
  nearest L M k1 → nearest L M k2 → k1 = k2.
Proof.
  intros [Hk1 H1] [Hk2 H2].
  destruct (H1 _ Hk2) as [Ha Hb], (H2 _ Hk1) as [Hc Hd]. lia.
Qed.

(** On the sorted keys, [min] with the distance as key finds the nearest
    key. *)
Lemma min_from_nearest (L : Z) (M : gmap Z Z) (first : Z) (others : list Z) :
  sorted_keys M = first :: others →
  nearest L M (min_from (λ x, Z.abs (x - L)) first others).
Proof.
  intros Hkeys.
  destruct (min_from_first (λ x, Z.abs (x - L)) others first)
    as (l1 & l2 & Heq & H1 & H2).
  set (r := min_from _ first others) in *.
  pose proof (sorted_keys_sorted M) as Hsorted.
  rewrite Hkeys, Heq in Hsorted.
  split.
  - apply sorted_keys_elem_of. rewrite Hkeys, Heq. set_solver.
  - intros k' Hk'. apply sorted_keys_elem_of in Hk'. rewrite Hkeys, Heq in Hk'.
    rewrite Forall_forall in H1, H2.
    apply elem_of_app in Hk' as [Hk'|Hk'].
    + specialize (H1 _ Hk'). simpl in H1. lia.
    + apply elem_of_cons in Hk' as [->|Hk']; [lia|].
      specialize (H2 _ Hk'). simpl in H2. split; [done|]. intros _.
      apply StronglySorted_app_1_r in Hsorted.
      apply StronglySorted_inv in Hsorted as [_ Hle].
      rewrite Forall_forall in Hle. by apply Hle.
Qed.

(** What [find_closest_line] returns, for any [max_distance]. *)
Lemma find_closest_line_cases (L : Z) (M : gmap Z Z) (d : Z) :
  (is_Some (M !! L) ∧ find_closest_line L M d = Some L)
  ∨ (M !! L = None ∧ dom M = ∅ ∧ find_closest_line L M d = None)
  ∨ (M !! L = None ∧ ∃ r, nearest L M r
       ∧ find_closest_line L M d = if Z.abs (r - L) <=? d then Some r else None).
Proof.
  unfold find_closest_line. destruct (M !! L) as [v|] eqn:HL; [left; eauto|].
  right. destruct (sorted_keys M) as [|first others] eqn:Hkeys.
  - left. split_and!; [done| |done].
    apply set_eq. intros k. rewrite <- sorted_keys_elem_of, Hkeys. set_solver.
  - right. split; [done|]. eexists. split; [by apply min_from_nearest|done].
Qed.

(** A line that is returned is a key of the map. *)
Lemma find_closest_line_is_key (L : Z) (M : gmap Z Z) (d k : Z) :
  find_closest_line L M d = Some k → k ∈ dom M.
Proof.
  destruct (find_closest_line_cases L M d)
    as [[HL ->]|[(_ & _ & ->)|(_ & r & [Hr _] & ->)]]; [|done|].
  - intros [= <-]. by apply elem_of_dom.
  - destruct (Z.abs (r - L) <=? d); [|done]. by intros [= <-].
Qed.

(** C3.  [find_closest_line L M 3] returns [L] whenever [L] is a key of
    [M]; otherwise it returns a line exactly when that line is the key
    of [M] nearest to [L], the smaller one on a tie, and lies at
    distance at most 3; it returns [None] exactly when every key is
    farther than 3, in particular for the empty map. *)
Theorem find_closest_line_spec (L : Z) (M : gmap Z Z) :
  (L ∈ dom M → find_closest_line L M 3 = Some L)
  ∧ (L ∉ dom M → ∀ k,
       find_closest_line L M 3 = Some k ↔ nearest L M k ∧ Z.abs (k - L) ≤ 3)
  ∧ (L ∉ dom M →
       (find_closest_line L M 3 = None ↔ ∀ k, k ∈ dom M → 3 < Z.abs (k - L)))
  ∧ find_closest_line L ∅ 3 = None.
Proof.
  split_and!.
  - intros HL. apply elem_of_dom in HL as [v Hv].
    unfold find_closest_line. by rewrite Hv.
  - intros HL k. rewrite elem_of_dom in HL.
    destruct (find_closest_line_cases L M 3)
      as [[HL' _]|[(_ & Hdom & ->)|(_ & r & Hr & ->)]]; [done| |].
    + split; [done|]. intros [[Hk _] _]. rewrite Hdom in Hk. set_solver.
    + destruct (Z.leb_spec (Z.abs (r - L)) 3) as [Hle|Hgt].
      * split; [by intros [= <-]|]. intros [Hk _]. f_equal.
        by apply (nearest_unique L M).
      * split; [done|]. intros [Hk Hle].
        rewrite (nearest_unique L M k r Hk Hr) in Hle. lia.
  - intros HL. rewrite elem_of_dom in HL.
    destruct (find_closest_line_cases L M 3)
      as [[HL' _]|[(_ & Hdom & ->)|(_ & r & Hr & ->)]]; [done| |].
    + split; [|done]. intros _ k Hk. rewrite Hdom in Hk. set_solver.
    + destruct (Z.leb_spec (Z.abs (r - L)) 3) as [Hle|Hgt].
      * split; [done|]. intros Hall. destruct Hr as [Hr _].
        specialize (Hall _ Hr). lia.
      * split; [|done]. intros _ k Hk. destruct Hr as [_ Hr].
        destruct (Hr _ Hk). lia.
  - done.
Qed.

Lemma find_closest_line_spec_witness :
  let M : gmap Z Z := {[ 1 := 2; 4 := 5; 5 := 3; 11 := 4 ]} in
  find_closest_line 4 M 3 = Some 4
  ∧ (find_closest_line 8 M 3 = Some 5 ↔ nearest 8 M 5 ∧ Z.abs (5 - 8) ≤ 3)
  ∧ (find_closest_line 50 M 3 = None ↔ ∀ k, k ∈ dom M → 3 < Z.abs (k - 50)).
Proof.
  intros M. split_and!.
  - destruct (find_closest_line_spec 4 M) as (Hkey & _).
    apply Hkey, elem_of_dom. exists 5. vm_compute. reflexivity.
  - destruct (find_closest_line_spec 8 M) as (_ & Hnear & _).
    apply Hnear, not_elem_of_dom. vm_compute. reflexivity.
  - destruct (find_closest_line_spec 50 M) as (_ & _ & Hnone & _).
    apply Hnone, not_elem_of_dom. vm_compute. reflexivity.
Defined.

End ClosestLine.

(** ** The file filter *)

Section FilterClaims.
Import Filter.

Lemma existsb_elem_of {A} (f : A → bool) (l : list A) :
  existsb f l = true ↔ ∃ x, x ∈ l ∧ f x = true.
Proof.
  rewrite existsb_exists. setoid_rewrite list_elem_of_In. done.
Qed.

Lemma existsb_false_elem_of {A} (f : A → bool) (l : list A) :
  existsb f l = false ↔ ∀ x, x ∈ l → f x = false.
Proof.
  rewrite <- not_true_iff_false, existsb_elem_of. split.
  - intros Hno x Hx. apply not_true_iff_false. intros Hfx. apply Hno. eauto.
  - intros Hall (x & Hx & Hfx). rewrite (Hall x Hx) in Hfx. done.
Qed.

(** The entries of a cleaned list are the trimmed pieces that are not
    blank. *)
Lemma elem_of_clean (raw p : string) :
  p ∈ clean raw ↔
    ∃ piece, piece ∈ split "," raw ∧ strip piece ≠ EmptyString ∧ p = strip piece.
Proof.
  unfold clean. rewrite list_elem_of_fmap. split.
  - intros (piece & -> & Hin). exists piece.
    apply list_elem_of_In, filter_In in Hin as [Hin Ht].
    split_and!; [by apply list_elem_of_In| |done].
    intros Hs. by rewrite Hs in Ht.
  - intros (piece & Hin & Hne & ->). exists piece. split; [done|].
    apply list_elem_of_In, filter_In. split; [by apply list_elem_of_In|].
    by destruct (strip piece).
Qed.

(** The star alone matches every name. *)
Lemma glob_star (name : string) : fnmatch_glob name "*" = true.
Proof.
  unfold fnmatch_glob. induction name as [|a name IH]; [reflexivity|].
  exact IH.
Qed.

(** C4.  For every matcher, configuration and file name:
    [should_review_file] answers [false] when some blacklist pattern
    matches; when none does, it answers [true] exactly when some
    whitelist pattern matches.  [from_env] trims the comma-separated
    entries and drops the blank ones; a whitelist left empty becomes the
    single pattern star, which matches every name.  With the blacklist
    [*.lock] and the whitelist [*], the name [package.lock] is
    rejected. *)
Theorem should_review_file_spec
    (fnmatch : string → string → bool) (C : FileFilterConfig) (F : string)
    (env : gmap string string) :
  ((∃ p, p ∈ blacklist_patterns C ∧ fnmatch F p = true) →
     should_review_file fnmatch C F = false)
  ∧ ((∀ p, p ∈ blacklist_patterns C → fnmatch F p = false) →
     (should_review_file fnmatch C F = true ↔
        ∃ p, p ∈ whitelist_patterns C ∧ fnmatch F p = true))
  ∧ blacklist_patterns (from_env env) = clean (getenv env "PR_REVIEW_BLACKLIST" EmptyString)
  ∧ (clean (getenv env "PR_REVIEW_WHITELIST" EmptyString) = [] →
     whitelist_patterns (from_env env) = ["*"])
  ∧ (clean (getenv env "PR_REVIEW_WHITELIST" EmptyString) ≠ [] →
     whitelist_patterns (from_env env) = clean (getenv env "PR_REVIEW_WHITELIST" EmptyString))
  ∧ (∀ raw p, p ∈ clean raw ↔
       ∃ piece, piece ∈ split "," raw ∧ strip piece ≠ EmptyString ∧ p = strip piece)
  ∧ fnmatch_glob F "*" = true
  ∧ should_review_file fnmatch_glob
      (from_env {[ "PR_REVIEW_WHITELIST" := "*"; "PR_REVIEW_BLACKLIST" := "*.lock" ]})
      "package.lock" = false.
Proof.
  split_and!.
  - intros Hbl. apply existsb_elem_of in Hbl.
    unfold should_review_file. by rewrite Hbl.
  - intros Hbl. apply existsb_false_elem_of in Hbl.
    unfold should_review_file. rewrite Hbl, <- existsb_elem_of.
    by destruct (existsb _ (whitelist_patterns C)).
  - done.
  - intros Hw. unfold from_env. simpl. by rewrite Hw.
  - intros Hw. unfold from_env. simpl.
    by destruct (clean (getenv env "PR_REVIEW_WHITELIST" EmptyString)).
  - apply elem_of_clean.
  - apply glob_star.
  - vm_compute. reflexivity.
Qed.

Lemma should_review_file_spec_witness :
  let C := {| whitelist_patterns := ["*.py"; "docs/*"];
              blacklist_patterns := ["*.lock"; "vendor/*"] |} in
  should_review_file fnmatch_glob C "vendor/x.py" = false
  ∧ (should_review_file fnmatch_glob C "docs/a.md" = true ↔
       ∃ p, p ∈ whitelist_patterns C ∧ fnmatch_glob "docs/a.md" p = true)
  ∧ whitelist_patterns (from_env {[ "PR_REVIEW_WHITELIST" := " , " ]}) = ["*"]
  ∧ whitelist_patterns (from_env {[ "PR_REVIEW_WHITELIST" := " *.py ,, docs/* " ]})
    = ["*.py"; "docs/*"].
Proof.
  intros C. split_and!.
  - destruct (should_review_file_spec fnmatch_glob C "vendor/x.py" ∅) as (Hbl & _).
    apply Hbl. exists "vendor/*". split; [|reflexivity].
    apply list_elem_of_In. simpl. tauto.
  - destruct (should_review_file_spec fnmatch_glob C "docs/a.md" ∅) as (_ & Hwl & _).
    apply Hwl. intros p Hp. apply list_elem_of_In in Hp. simpl in Hp.
    destruct Hp as [<-|[<-|[]]]; reflexivity.
  - destruct (should_review_file_spec fnmatch_glob C EmptyString
                {[ "PR_REVIEW_WHITELIST" := " , " ]}) as (_ & _ & _ & Hdef & _).
    apply Hdef. vm_compute. reflexivity.
  - destruct (should_review_file_spec fnmatch_glob C EmptyString
                {[ "PR_REVIEW_WHITELIST" := " *.py ,, docs/* " ]})
      as (_ & _ & _ & _ & Hkeep & _).
    rewrite Hkeep; [vm_compute; reflexivity|]. vm_compute. discriminate.
Defined.

End FilterClaims.

(** ** The reviewer *)

Section ReviewerClaims.
Import Reviewer Orchestrator.

Context (instructions : string)
        (messages_create : string → result string)
        (json_loads : string → result json).

(** [review_code] catches whatever is raised inside it. *)
Lemma review_code_returns (code file_path : string) :
  ∃ l, review_code instructions messages_create json_loads code file_path = Ok l.
Proof.
  unfold review_code.
  destruct (messages_create _) as [text|e]; simpl; [|by eexists].
  destruct (json_loads text) as [v|[]]; simpl; try by eexists.
  destruct (isinstance_list v); simpl; by eexists.
Qed.

End ReviewerClaims.

(** ** The review orchestrator *)

Lemma string_app_assoc (s1 s2 s3 : string) :
  (s1 +:+ s2) +:+ s3 = s1 +:+ s2 +:+ s3.
Proof.
  induction s1 as [|c s1 IH]; [done|].
  unfold String.app in *. simpl. by rewrite IH.
Qed.

Lemma string_app_nil_r (s : string) : s +:+ EmptyString = s.
Proof.
  induction s as [|c s IH]; [done|].
  unfold String.app in *. simpl. by rewrite IH.
Qed.

Section OrchestratorFacts.
Import Mapper Filter Reviewer Orchestrator.

Context (fnmatch : string → string → bool)
        (file_filter : FileFilterConfig)
        (get_contents : string → result string)
        (instructions : string)
        (messages_create : string → result string)
        (json_loads : string → result json)
        (repr : json → string)
        (float_closest : string → gmap Z Z → Z → result (option Z)).

Local Abbreviation py_str := (py_str repr).
Local Abbreviation find_closest_line_of := (find_closest_line_of float_closest).
Local Abbreviation suggestion_block := (suggestion_block repr).
Local Abbreviation general_body := (general_body repr).
Local Abbreviation process_comment := (process_comment repr float_closest).
Local Abbreviation outcome := (outcome repr float_closest).
Local Abbreviation process_file :=
  (process_file fnmatch file_filter get_contents instructions messages_create
     json_loads repr float_closest).
Local Abbreviation review_loop :=
  (review_loop fnmatch file_filter get_contents instructions messages_create
     json_loads repr float_closest).
Local Abbreviation run_review :=
  (run_review fnmatch file_filter get_contents instructions messages_create
     json_loads repr float_closest).
Local Abbreviation findings_of :=
  (findings_of fnmatch file_filter get_contents instructions messages_create json_loads).
Local Abbreviation file_outcomes :=
  (file_outcomes fnmatch file_filter get_contents instructions messages_create
     json_loads repr float_closest).
Local Abbreviation run_outcomes :=
  (run_outcomes fnmatch file_filter get_contents instructions messages_create
     json_loads repr float_closest).
Local Abbreviation loop_result := (loop_result fnmatch file_filter).
Local Abbreviation passes_filter := (passes_filter fnmatch file_filter).
Local Abbreviation fails_filter := (fails_filter fnmatch file_filter).

Lemma extend_nil (st : Run) : extend st [] [] [] [] = st.
Proof. destruct st. unfold extend. simpl. by rewrite !app_nil_r. Qed.

Lemma extend_extend (st : Run) (d1 d2 : list Draft) (g1 g2 s1 s2 r1 r2 : list string) :
  extend (extend st d1 g1 s1 r1) d2 g2 s2 r2
  = extend st (d1 ++ d2) (g1 ++ g2) (s1 ++ s2) (r1 ++ r2).
Proof. unfold extend. simpl. by rewrite !app_assoc. Qed.

Lemma omap_cons_eq {A B} (f : A → option B) (x : A) (l : list A) :
  omap f (x :: l) = match f x with Some y => y :: omap f l | None => omap f l end.
Proof. reflexivity. Qed.

Lemma bind_Ok {A B} (a : A) (k : A → result B) : (Ok a ≫= k) = k a.
Proof. reflexivity. Qed.

Lemma bind_Raise {A B} (e : exn) (k : A → result B) : (Raise e ≫= k) = Raise e.
Proof. reflexivity. Qed.

Lemma bind_Ok_inv {A B} (m : result A) (k : A → result B) (b : B) :
  (m ≫= k) = Ok b → ∃ a, m = Ok a ∧ k a = Ok b.
Proof. destruct m as [a|e]; [by exists a|done]. Qed.

(** *** Loops that collect results or raise *)

Lemma mapM_cons_eq {A B} (f : A → result B) (x : A) (l : list A) :
  mapM f (x :: l) = (y ← f x; ys ← mapM f l; Ok (y :: ys)).
Proof. reflexivity. Qed.

Lemma mapM_nil_eq {A B} (f : A → result B) : mapM f [] = Ok [].
Proof. reflexivity. Qed.

Lemma mapM_Ok_length {A B} (f : A → result B) (l : list A) (ys : list B) :
  mapM f l = Ok ys → length ys = length l.
Proof.
  revert ys. induction l as [|x l IH]; intros ys H.
  - by injection H as <-.
  - rewrite mapM_cons_eq in H.
    apply bind_Ok_inv in H as (y & _ & H).
    apply bind_Ok_inv in H as (ys' & Hys & H). injection H as <-.
    simpl. by rewrite (IH ys').
Qed.

(** Every item had its result, and every result its item. *)
Lemma mapM_Ok_elem {A B} (f : A → result B) (l : list A) (ys : list B) (x : A) :
  mapM f l = Ok ys → x ∈ l → ∃ y, f x = Ok y ∧ y ∈ ys.
Proof.
  revert ys. induction l as [|x0 l IH]; intros ys H Hx.
  - by apply not_elem_of_nil in Hx.
  - rewrite mapM_cons_eq in H.
    apply bind_Ok_inv in H as (y & Hy & H).
    apply bind_Ok_inv in H as (ys' & Hys & H). injection H as <-.
    apply elem_of_cons in Hx as [->|Hx].
    + exists y. split; [done|by left].
    + destruct (IH ys' Hys Hx) as (y' & Hy' & Hin). exists y'. split; [done|by right].
Qed.

Lemma mapM_Ok_origin {A B} (f : A → result B) (l : list A) (ys : list B) (y : B) :
  mapM f l = Ok ys → y ∈ ys → ∃ x, x ∈ l ∧ f x = Ok y.
Proof.
  revert ys. induction l as [|x0 l IH]; intros ys H Hy.
  - injection H as <-. by apply not_elem_of_nil in Hy.
  - rewrite mapM_cons_eq in H.
    apply bind_Ok_inv in H as (y0 & Hy0 & H).
    apply bind_Ok_inv in H as (ys' & Hys & H). injection H as <-.
    apply elem_of_cons in Hy as [->|Hy].
    + exists x0. split; [by left|done].
    + destruct (IH ys' Hys Hy) as (x & Hx & Hfx). exists x. split; [by right|done].
Qed.

(** The loop ends when every item has a result. *)
Lemma mapM_Ok_total {A B} (f : A → result B) (l : list A) :
  (∀ x, x ∈ l → ∃ y, f x = Ok y) → ∃ ys, mapM f l = Ok ys.
Proof.
  induction l as [|x l IH]; intros H; [by exists []|].
  destruct (H x) as [y Hy]; [by left|].
  destruct IH as [ys Hys]; [intros x' Hx'; apply H; by right|].
  exists (y :: ys). by rewrite mapM_cons_eq, Hy, bind_Ok, Hys.
Qed.

Lemma mapM_app_Ok {A B} (f : A → result B) (l1 l2 : list A) (ys1 ys2 : list B) :
  mapM f l1 = Ok ys1 → mapM f l2 = Ok ys2 → mapM f (l1 ++ l2) = Ok (ys1 ++ ys2).
Proof.
  revert ys1. induction l1 as [|x l1 IH]; intros ys1 H1 H2.
  - by injection H1 as <-.
  - rewrite mapM_cons_eq in H1.
    apply bind_Ok_inv in H1 as (y & Hy & H1).
    apply bind_Ok_inv in H1 as (ys & Hys & H1). injection H1 as <-.
    cbn [app]. rewrite mapM_cons_eq, Hy, bind_Ok, (IH ys Hys H2). done.
Qed.

Lemma mapM_app_Raise_l {A B} (f : A → result B) (l1 l2 : list A) (e : exn) :
  mapM f l1 = Raise e → mapM f (l1 ++ l2) = Raise e.
Proof.
  induction l1 as [|x l1 IH]; intros H1; [done|].
  rewrite mapM_cons_eq in H1. cbn [app]. rewrite mapM_cons_eq.
  destruct (f x) as [y|e']; [|done]. rewrite bind_Ok in H1 |- *.
  destruct (mapM f l1) as [ys|e'] eqn:Hys; [done|].
  rewrite bind_Raise in H1. injection H1 as ->. by rewrite (IH eq_refl).
Qed.

Lemma mapM_app_Raise_r {A B} (f : A → result B) (l1 l2 : list A)
    (ys1 : list B) (e : exn) :
  mapM f l1 = Ok ys1 → mapM f l2 = Raise e → mapM f (l1 ++ l2) = Raise e.
Proof.
  revert ys1. induction l1 as [|x l1 IH]; intros ys1 H1 H2; [done|].
  rewrite mapM_cons_eq in H1.
  apply bind_Ok_inv in H1 as (y & Hy & H1).
  apply bind_Ok_inv in H1 as (ys & Hys & H1).
  cbn [app]. rewrite mapM_cons_eq, Hy, bind_Ok, (IH ys Hys H2). done.
Qed.

Lemma mapM_app_inv {A B} (f : A → result B) (l1 l2 : list A) (ys : list B) :
  mapM f (l1 ++ l2) = Ok ys →
  ∃ ys1 ys2, mapM f l1 = Ok ys1 ∧ mapM f l2 = Ok ys2 ∧ ys = ys1 ++ ys2.
Proof.
  revert ys. induction l1 as [|x l1 IH]; intros ys H.
  - by exists [], ys.
  - cbn [app] in H. rewrite mapM_cons_eq in H.
    apply bind_Ok_inv in H as (y & Hy & H).
    apply bind_Ok_inv in H as (ys' & Hys & H). injection H as <-.
    destruct (IH ys' Hys) as (ys1 & ys2 & H1 & H2 & ->).
    exists (y :: ys1), ys2. by rewrite mapM_cons_eq, Hy, bind_Ok, H1.
Qed.

Lemma inlines_app (os1 os2 : list Outcome) :
  inlines (os1 ++ os2) = inlines os1 ++ inlines os2.
Proof. apply omap_app. Qed.

Lemma generals_app (os1 os2 : list Outcome) :
  generals (os1 ++ os2) = generals os1 ++ generals os2.
Proof. apply omap_app. Qed.

Lemma outcomes_split (os : list Outcome) :
  (length (inlines os) + length (generals os) = length os)%nat.
Proof.
  induction os as [|[d|b] os IH]; [done| |];
    unfold inlines, generals in *; rewrite !omap_cons_eq; simpl; lia.
Qed.

Lemma elem_of_inlines (os : list Outcome) (d : Draft) :
  d ∈ inlines os ↔ Inline d ∈ os.
Proof.
  unfold inlines. rewrite list_elem_of_omap. split.
  - intros ([d'|b] & Ho & Heq); [|done]. by injection Heq as ->.
  - intros Ho. by exists (Inline d).
Qed.

Lemma elem_of_generals (os : list Outcome) (b : string) :
  b ∈ generals os ↔ General b ∈ os.
Proof.
  unfold generals. rewrite list_elem_of_omap. split.
  - intros ([d|b'] & Ho & Heq); [done|]. by injection Heq as ->.
  - intros Ho. by exists (General b).
Qed.

(** *** The two loops in closed form *)

(** One finding: the step raises what the finding raises, and records
    its outcome otherwise. *)
Lemma process_comment_closed (E : gmap string string) (file : File)
    (p : string) (st : Run) (c : json) :
  truthy_patch file = Some p →
  process_comment E file st c =
    (o ← outcome file p c; Ok (record_outcome E st o)).
Proof.
  intros Hp. unfold Orchestrator.process_comment, Orchestrator.outcome. rewrite Hp.
  destruct (subscript c "line") as [line_num|e]; [|done]. rewrite !bind_Ok.
  destruct (find_closest_line_of line_num (calculate_line_positions p) 3)
    as [[m|]|e]; [| |done]; rewrite !bind_Ok.
  - destruct (getitem (calculate_line_positions p) m) as [pos|e]; [|done].
    rewrite !bind_Ok.
    destruct (suggestion_block c) as [b|e]; [|done]. rewrite !bind_Ok.
    cbn [record_outcome]. unfold is_new. cbn [path position].
    destruct (bool_decide _); cbn [negb]; [done|].
    unfold extend. by rewrite !app_nil_r.
  - destruct (general_body (filename file) line_num c) as [b|e]; [|done].
    rewrite !bind_Ok. cbn [record_outcome]. unfold extend. by rewrite !app_nil_r.
Qed.

(** The inner loop appends the new inline comments and the general
    comments of the findings, in their order, when no finding raises. *)
Lemma for_each_process_comment (E : gmap string string) (file : File)
    (p : string) (cs : list json) (st : Run) :
  truthy_patch file = Some p →
  for_each (process_comment E file) st cs =
    (os ← mapM (outcome file p) cs;
     Ok (extend st (filter (λ d, is_new E d) (inlines os)) (generals os) [] [])).
Proof.
  intros Hp. revert st. induction cs as [|c cs IH]; intros st.
  - simpl. by rewrite extend_nil.
  - cbn [for_each]. rewrite (process_comment_closed E file p st c Hp), mapM_cons_eq.
    destruct (outcome file p c) as [o|e]; [|done]. rewrite !bind_Ok, IH.
    destruct (mapM (outcome file p) cs) as [os|e]; [|done]. rewrite !bind_Ok.
    f_equal. unfold inlines, generals. rewrite !omap_cons_eq.
    destruct o as [d|b]; cbn [record_outcome].
    + destruct (is_new E d) eqn:Hnew.
      * rewrite extend_extend, filter_cons_True by (by apply Is_true_true). done.
      * rewrite filter_cons_False by (by apply Is_true_false). done.
    + by rewrite extend_extend.
Qed.

Lemma extend_reviewed (st : Run) (name : string) :
  {| draft_review_comments := draft_review_comments st;
     general_comments := general_comments st;
     skipped_files := skipped_files st;
     reviewed_files := reviewed_files st ++ [name] |}
  = extend st [] [] [] [name].
Proof. unfold extend. by rewrite !app_nil_r. Qed.

Lemma extend_skipped (st : Run) (name : string) :
  {| draft_review_comments := draft_review_comments st;
     general_comments := general_comments st;
     skipped_files := skipped_files st ++ [name];
     reviewed_files := reviewed_files st |}
  = extend st [] [] [name] [].
Proof. unfold extend. by rewrite !app_nil_r. Qed.

Lemma findings_of_nil_outcomes (file : File) :
  findings_of file = [] → file_outcomes file = Ok [].
Proof.
  intros Hf. unfold Orchestrator.file_outcomes. rewrite Hf.
  by destruct (truthy_patch file).
Qed.

(** One file: what the body of the outer loop appends to the four
    lists, when no finding of the file raises. *)
Lemma process_file_closed (E : gmap string string) (st : Run) (file : File) :
  process_file E st file =
    (os ← file_outcomes file;
     Ok (extend st
           (filter (λ d, is_new E d) (inlines os))
           (generals os)
           (if fails_filter file then [filename file] else [])
           (if passes_filter file then [filename file] else []))).
Proof.
  unfold Orchestrator.process_file, Orchestrator.file_outcomes,
    Orchestrator.findings_of, Orchestrator.passes_filter, Orchestrator.fails_filter.
  destruct (bool_decide (status file = "removed")); cbn [negb andb].
  { destruct (truthy_patch file); by rewrite ?mapM_nil_eq, bind_Ok, extend_nil. }
  destruct (should_review_file fnmatch file_filter (filename file)); cbn [negb].
  2:{ rewrite extend_skipped. by destruct (truthy_patch file). }
  rewrite extend_reviewed.
  destruct (get_contents (filename file)) as [content|e].
  2:{ by destruct (truthy_patch file). }
  destruct (truthy_patch file) as [p|] eqn:Hp; [|done].
  destruct (review_code_returns instructions messages_create json_loads
              content (filename file)) as [l ->].
  rewrite bind_Ok, (for_each_process_comment E file p l _ Hp).
  destruct (mapM (outcome file p) l) as [os|e]; [|done].
  rewrite !bind_Ok, extend_extend. by rewrite !app_nil_r.
Qed.

(** The whole loop over the changed files, from any state. *)
Lemma for_each_process_file (E : gmap string string) (files : list File) (st : Run) :
  for_each (process_file E) st files =
    (os ← run_outcomes files;
     Ok (extend st
           (filter (λ d, is_new E d) (inlines os))
           (generals os)
           (filename <$> filter (λ f, fails_filter f) files)
           (filename <$> filter (λ f, passes_filter f) files))).
Proof.
  unfold Orchestrator.run_outcomes.
  revert st. induction files as [|file files IH]; intros st.
  - simpl. by rewrite extend_nil.
  - cbn [for_each]. rewrite process_file_closed, mapM_cons_eq.
    destruct (file_outcomes file) as [os|e]; [|done]. rewrite !bind_Ok, IH.
    destruct (mapM file_outcomes files) as [oss|e]; [|done]. rewrite !bind_Ok.
    cbn [concat]. rewrite extend_extend, inlines_app, generals_app, filter_app.
    do 2 f_equal.
    + destruct (fails_filter file) eqn:Hf.
      * rewrite filter_cons_True; [reflexivity|]. by apply Is_true_true.
      * rewrite filter_cons_False; [reflexivity|]. by apply Is_true_false.
    + destruct (passes_filter file) eqn:Hf.
      * rewrite filter_cons_True; [reflexivity|]. by apply Is_true_true.
      * rewrite filter_cons_False; [reflexivity|]. by apply Is_true_false.
Qed.

(** The loop raises what the first failing finding raises, whatever
    comments exist; otherwise its state is [loop_result]. *)
Lemma review_loop_closed (files : list File) (comments : list ReviewComment) :
  review_loop files comments =
    (os ← run_outcomes files; Ok (loop_result files comments os)).
Proof. unfold Orchestrator.review_loop. apply for_each_process_file. Qed.

Lemma review_loop_Ok (files : list File) (comments : list ReviewComment) (st : Run) :
  review_loop files comments = Ok st ↔
  ∃ os, run_outcomes files = Ok os ∧ st = loop_result files comments os.
Proof.
  rewrite review_loop_closed. split.
  - intros H. apply bind_Ok_inv in H as (os & Hos & H). injection H as <-.
    by exists os.
  - intros (os & -> & ->). done.
Qed.

Lemma review_loop_Raise (files : list File) (comments : list ReviewComment) (e : exn) :
  review_loop files comments = Raise e ↔ run_outcomes files = Raise e.
Proof.
  rewrite review_loop_closed.
  destruct (run_outcomes files) as [os|e']; rewrite ?bind_Ok, ?bind_Raise;
    split; intros H; by inversion H.
Qed.

Lemma run_review_closed (files : list File) (cs : list ReviewComment) :
  run_review files cs =
    (os ← run_outcomes files; Ok (submit (loop_result files cs os))).
Proof.
  unfold Orchestrator.run_review. rewrite review_loop_closed.
  by destruct (run_outcomes files).
Qed.

(** The keys of the index are the keys of the comments it was built
    from. *)
Lemma get_existing_comments_key (comments : list ReviewComment) (K : string) :
  is_Some (get_existing_comments comments !! K) ↔
  ∃ c, c ∈ comments ∧ K = rc_path c +:+ ":" +:+ str_position (rc_position c).
Proof.
  unfold get_existing_comments.
  assert (Hgen : ∀ acc : gmap string string,
    is_Some (foldl (λ existing c,
                      <[rc_path c +:+ ":" +:+ str_position (rc_position c) := rc_body c]>
                        existing) acc comments !! K) ↔
    is_Some (acc !! K)
    ∨ ∃ c, c ∈ comments ∧ K = rc_path c +:+ ":" +:+ str_position (rc_position c)).
  { induction comments as [|c comments IH]; intros acc.
    - simpl. split; [by left|]. intros [H|(c & Hc & _)]; [done|].
      by apply not_elem_of_nil in Hc.
    - simpl. rewrite IH. rewrite lookup_insert_is_Some. split.
      + intros [[Heq|[_ Hacc]]|(c' & Hc' & HK)].
        * right. exists c. split; [by left|done].
        * by left.
        * right. exists c'. split; [by right|done].
      + intros [Hacc|(c' & Hc' & HK)].
        * destruct (decide (rc_path c +:+ ":" +:+ str_position (rc_position c) = K));
            left; [by left|by right].
        * apply elem_of_cons in Hc' as [->|Hc'].
          -- left. by left.
          -- right. by exists c'. }
  rewrite Hgen. split; [|by right].
  intros [H|H]; [|done]. rewrite lookup_empty in H. by destruct H.
Qed.

(** A comment on the platform at a position has the key that
    [run_review] computes for its path and position. *)
Lemma existing_key_at_position (comments : list ReviewComment) (c : ReviewComment) (n : Z) :
  c ∈ comments → rc_position c = Some n →
  is_Some (get_existing_comments comments !! comment_key (rc_path c) n).
Proof.
  intros Hc Hn. apply get_existing_comments_key. exists c. split; [done|].
  unfold comment_key. by rewrite Hn.
Qed.

Lemma is_new_false (E : gmap string string) (d : Draft) :
  is_new E d = false ↔ is_Some (E !! comment_key (path d) (position d)).
Proof.
  unfold is_new. rewrite negb_false_iff. apply bool_decide_eq_true.
Qed.

Lemma is_new_true (E : gmap string string) (d : Draft) :
  is_new E d = true ↔ E !! comment_key (path d) (position d) = None.
Proof.
  unfold is_new. rewrite negb_true_iff, bool_decide_eq_false.
  symmetry. apply eq_None_not_Some.
Qed.

Lemma add_bullets_app (review_body : string) (names : list string) :
  add_bullets review_body names = review_body +:+ bullets names.
Proof.
  unfold bullets, add_bullets. revert review_body.
  induction names as [|name names IH]; intros review_body.
  - simpl. by rewrite string_app_nil_r.
  - cbn [foldl]. rewrite IH, (IH (EmptyString +:+ _)). by rewrite !string_app_assoc.
Qed.

Lemma bullets_cons (name : string) (names : list string) :
  bullets (name :: names) = "- " +:+ name +:+ nl +:+ bullets names.
Proof.
  unfold bullets at 1, add_bullets. cbn [foldl].
  change (foldl ?f ?a names) with (add_bullets a names).
  rewrite add_bullets_app. by rewrite !string_app_assoc.
Qed.

(** Every name of the list has its own line among the bullets. *)
Lemma bullets_listed (names : list string) (name : string) :
  name ∈ names →
  ∃ before after, bullets names = before +:+ "- " +:+ name +:+ nl +:+ after.
Proof.
  induction names as [|n names IH]; intros Hin.
  - by apply not_elem_of_nil in Hin.
  - rewrite bullets_cons. apply elem_of_cons in Hin as [->|Hin].
    + by exists EmptyString, (bullets names).
    + destruct (IH Hin) as (before & after & ->).
      exists ("- " +:+ n +:+ nl +:+ before), after.
      by rewrite !string_app_assoc.
Qed.

(** The body opens with the summary line and, when files were reviewed,
    the count and the list of the reviewed files. *)
Lemma compose_body_reviewed (st : Run) :
  reviewed_files st ≠ [] →
  ∃ rest, compose_body st =
    "🤖 Code Review Summary:" +:+ nl +:+ nl +:+ "Reviewed "
      +:+ pretty (length (reviewed_files st)) +:+ " files:" +:+ nl
      +:+ bullets (reviewed_files st) +:+ rest.
Proof.
  intros Hne. unfold compose_body.
  destruct (reviewed_files st) as [|r rs] eqn:Hr; [done|].
  rewrite !add_bullets_app.
  destruct (skipped_files st), (draft_review_comments st), (general_comments st);
    rewrite ?add_bullets_app, ?string_app_assoc; eexists; reflexivity.
Qed.

Lemma join_listed (sep : string) (l : list string) (g : string) :
  g ∈ l → ∃ before after, join sep l = before +:+ g +:+ after.
Proof.
  induction l as [|x l IH]; intros Hg; [by apply not_elem_of_nil in Hg|].
  apply elem_of_cons in Hg as [->|Hg].
  - destruct l as [|y l].
    + exists EmptyString, EmptyString. cbn [join].
      by rewrite string_app_nil_r.
    + by exists EmptyString, (sep +:+ join sep (y :: l)).
  - destruct (IH Hg) as (before & after & Heq).
    destruct l as [|y l]; [by apply not_elem_of_nil in Hg|].
    exists (x +:+ sep +:+ before), after.
    change (join sep (x :: y :: l)) with (x +:+ sep +:+ join sep (y :: l)).
    by rewrite Heq, !string_app_assoc.
Qed.

(** A general comment stands word for word in the composed body. *)
Lemma compose_body_general (st : Run) (g : string) :
  g ∈ general_comments st →
  ∃ before after, compose_body st = before +:+ g +:+ after.
Proof.
  intros Hg. unfold compose_body.
  destruct (general_comments st) as [|g0 gs] eqn:Hgs;
    [by apply not_elem_of_nil in Hg|].
  destruct (join_listed (nl +:+ nl) (g0 :: gs) g Hg) as (before & after & ->).
  eexists _, after. rewrite <- !string_app_assoc. reflexivity.
Qed.

(** [join] and the bullets in the words of the library: the
    concatenation of the items with a separator, and of the bullet
    lines with none. *)
Lemma join_concat (sep : string) (l : list string) :
  join sep l = String.concat sep l.
Proof.
  induction l as [|x l IH]; [done|].
  destruct l as [|y l]; [done|].
  change (join sep (x :: y :: l)) with (x +:+ sep +:+ join sep (y :: l)).
  by rewrite IH.
Qed.

Lemma concat_empty_cons (x : string) (l : list string) :
  String.concat EmptyString (x :: l) = x +:+ String.concat EmptyString l.
Proof.
  destruct l as [|y l]; cbn [String.concat]; [by rewrite string_app_nil_r|done].
Qed.

Lemma bullets_concat (names : list string) :
  bullets names =
  String.concat EmptyString ((λ name, "- " +:+ name +:+ nl) <$> names).
Proof.
  induction names as [|n names IH]; [done|].
  rewrite bullets_cons, IH, fmap_cons, concat_empty_cons.
  by rewrite !string_app_assoc.
Qed.

(** The composed body, part by part. *)
Lemma compose_body_text (st : Run) :
  compose_body st =
    "🤖 Code Review Summary:" +:+ nl +:+ nl
    +:+ match reviewed_files st with
        | [] => EmptyString
        | _ => "Reviewed " +:+ pretty (length (reviewed_files st)) +:+ " files:"
                 +:+ nl +:+ bullets (reviewed_files st)
        end
    +:+ match skipped_files st with
        | [] => EmptyString
        | _ => nl +:+ "Skipped " +:+ pretty (length (skipped_files st))
                 +:+ " files based on filter configuration:" +:+ nl
                 +:+ bullets (skipped_files st)
        end
    +:+ nl
    +:+ match draft_review_comments st with
        | [] => "✨ Great job! The code looks clean and well-written."
        | _ => "Found " +:+ pretty (length (draft_review_comments st))
                 +:+ " suggestions for improvement."
        end
    +:+ match general_comments st with
        | [] => EmptyString
        | _ => nl +:+ nl +:+ "### Additional Comments:" +:+ nl +:+ nl
                 +:+ join (nl +:+ nl) (general_comments st)
        end.
Proof.
  unfold compose_body.
  destruct (reviewed_files st) as [|r rs];
    destruct (skipped_files st) as [|k ks];
    destruct (draft_review_comments st) as [|d ds];
    destruct (general_comments st) as [|g gs];
    rewrite ?add_bullets_app, ?string_app_assoc, ?string_app_nil_r;
    reflexivity.
Qed.

(** *** The findings of a file and their outcomes *)

Lemma elem_of_concat {A} (ls : list (list A)) (x : A) :
  x ∈ concat ls ↔ ∃ l, x ∈ l ∧ l ∈ ls.
Proof.
  induction ls as [|l0 ls IH]; cbn [concat].
  - split; [intros H; by apply not_elem_of_nil in H|].
    intros (l & _ & H). by apply not_elem_of_nil in H.
  - rewrite elem_of_app, IH. split.
    + intros [H|(l & Hx & Hl)]; [exists l0; split; [done|by left]|].
      exists l. split; [done|by right].
    + intros (l & Hx & Hl). apply elem_of_cons in Hl as [->|Hl]; [by left|].
      right. by exists l.
Qed.

Lemma findings_of_passes (f : File) (c : json) :
  c ∈ findings_of f →
  status f ≠ "removed"
  ∧ should_review_file fnmatch file_filter (filename f) = true.
Proof.
  unfold Orchestrator.findings_of. intros Hc.
  destruct (decide (status f = "removed")) as [Hs|Hs].
  - rewrite bool_decide_eq_true_2 in Hc by done. by apply not_elem_of_nil in Hc.
  - split; [done|].
    destruct (should_review_file fnmatch file_filter (filename f)); [done|].
    rewrite bool_decide_eq_false_2 in Hc by done. by apply not_elem_of_nil in Hc.
Qed.

Lemma findings_of_no_patch (f : File) : truthy_patch f = None → findings_of f = [].
Proof.
  intros Hp. unfold Orchestrator.findings_of. rewrite Hp.
  by destruct (bool_decide (status f = "removed")),
       (should_review_file fnmatch file_filter (filename f)),
       (get_contents (filename f)).
Qed.

(** The findings of a file that is reviewed are the list that
    [review_code] returned for it. *)
Lemma findings_of_reviewed (f : File) (p content : string) (l : list json) :
  status f ≠ "removed" →
  should_review_file fnmatch file_filter (filename f) = true →
  get_contents (filename f) = Ok content →
  truthy_patch f = Some p →
  review_code instructions messages_create json_loads content (filename f) = Ok l →
  findings_of f = l.
Proof.
  intros Hs Hpass Hc Hp Hl. unfold Orchestrator.findings_of.
  rewrite bool_decide_eq_false_2 by done. by rewrite Hpass, Hc, Hp, Hl.
Qed.

(** The lookup after a successful search cannot fail, so a finding of
    the shape that the prompt asks for has an outcome. *)
Lemma outcome_well_shaped (file : File) (p : string) (c : json) :
  well_shaped c → ∃ o, outcome file p c = Ok o.
Proof.
  intros (members & n & text & -> & Hl & Ht). unfold Orchestrator.outcome.
  cbn [subscript]. rewrite Hl, bind_Ok.
  cbn [Orchestrator.find_closest_line_of]. rewrite bind_Ok.
  destruct (find_closest_line n (calculate_line_positions p) 3) as [k|] eqn:Hfind.
  - pose proof (find_closest_line_is_key _ _ _ _ Hfind) as Hkey.
    apply elem_of_dom in Hkey as [pos Hpos]. unfold getitem. rewrite Hpos, bind_Ok.
    unfold Orchestrator.suggestion_block. cbn [subscript get_default].
    rewrite Ht, !bind_Ok. by eexists.
  - unfold Orchestrator.general_body, Orchestrator.suggestion_block.
    cbn [subscript get_default]. rewrite Ht, !bind_Ok. by eexists.
Qed.

(** A finding that resolves nowhere has the general comment as its
    outcome, if it has one. *)
Lemma outcome_unresolved (file : File) (p : string) (c line_num : json) :
  subscript c "line" = Ok line_num →
  find_closest_line_of line_num (calculate_line_positions p) 3 = Ok None →
  outcome file p c =
    (b ← general_body (filename file) line_num c; Ok (General b)).
Proof.
  intros Hl Hf. unfold Orchestrator.outcome. by rewrite Hl, bind_Ok, Hf, bind_Ok.
Qed.

(** An inline comment comes from a finding whose line resolved. *)
Lemma outcome_inline_inv (file : File) (p : string) (c : json) (d : Draft) :
  outcome file p c = Ok (Inline d) →
  ∃ line_num m,
    subscript c "line" = Ok line_num
    ∧ find_closest_line_of line_num (calculate_line_positions p) 3 = Ok (Some m)
    ∧ calculate_line_positions p !! m = Some (position d)
    ∧ path d = filename file
    ∧ suggestion_block c = Ok (body d).
Proof.
  unfold Orchestrator.outcome. intros H.
  apply bind_Ok_inv in H as (line_num & Hl & H).
  apply bind_Ok_inv in H as (mapped & Hf & H).
  destruct mapped as [m|].
  - apply bind_Ok_inv in H as (pos & Hpos & H).
    apply bind_Ok_inv in H as (b & Hb & H). injection H as <-.
    exists line_num, m. split_and!; try done.
    unfold getitem in Hpos.
    destruct (calculate_line_positions p !! m) as [v|]; [|done].
    by injection Hpos as ->.
  - apply bind_Ok_inv in H as (b & _ & H). discriminate H.
Qed.

Lemma file_outcomes_Ok (f : File) (os : list Outcome) :
  file_outcomes f = Ok os →
  (truthy_patch f = None ∧ os = [])
  ∨ ∃ p, truthy_patch f = Some p ∧ mapM (outcome f p) (findings_of f) = Ok os.
Proof.
  unfold Orchestrator.file_outcomes. destruct (truthy_patch f) as [p|].
  - intros H. right. by exists p.
  - intros H. left. by injection H as <-.
Qed.

Lemma run_outcomes_Ok (files : list File) (os : list Outcome) :
  run_outcomes files = Ok os ↔
  ∃ per_file, mapM file_outcomes files = Ok per_file ∧ os = concat per_file.
Proof.
  unfold Orchestrator.run_outcomes. split.
  - intros H. apply bind_Ok_inv in H as (per_file & Hm & H). injection H as <-.
    by exists per_file.
  - intros (per_file & -> & ->). done.
Qed.

(** In a loop that ends, every finding that reached the inner loop has
    its outcome among the outcomes of the run. *)
Lemma run_outcomes_elem (files : list File) (os : list Outcome)
    (f : File) (p : string) (c : json) :
  run_outcomes files = Ok os → f ∈ files → truthy_patch f = Some p →
  c ∈ findings_of f →
  ∃ o, outcome f p c = Ok o ∧ o ∈ os.
Proof.
  intros Hrun Hf Hp Hc. apply run_outcomes_Ok in Hrun as (per_file & Hm & ->).
  destruct (mapM_Ok_elem _ _ _ f Hm Hf) as (os_f & Hos_f & Hin).
  apply file_outcomes_Ok in Hos_f as [[Hnone _]|(p' & Hp' & Hos_f)]; [congruence|].
  assert (p' = p) as -> by congruence.
  destruct (mapM_Ok_elem _ _ _ c Hos_f Hc) as (o & Ho & Hino).
  exists o. split; [done|]. apply elem_of_concat. by exists os_f.
Qed.

(** And every outcome of the run is the outcome of such a finding. *)
Lemma run_outcomes_origin (files : list File) (os : list Outcome) (o : Outcome) :
  run_outcomes files = Ok os → o ∈ os →
  ∃ f p c, f ∈ files ∧ truthy_patch f = Some p ∧ c ∈ findings_of f
           ∧ outcome f p c = Ok o.
Proof.
  intros Hrun Ho. apply run_outcomes_Ok in Hrun as (per_file & Hm & ->).
  apply elem_of_concat in Ho as (os_f & Ho & Hin).
  destruct (mapM_Ok_origin _ _ _ os_f Hm Hin) as (f & Hf & Hos_f).
  apply file_outcomes_Ok in Hos_f as [[_ ->]|(p & Hp & Hos_f)];
    [by apply not_elem_of_nil in Ho|].
  destruct (mapM_Ok_origin _ _ _ o Hos_f Ho) as (c & Hc & Hout).
  by exists f, p, c.
Qed.

(** The loops end when every finding has the shape that the prompt
    asks for. *)
Lemma run_outcomes_total (files : list File) :
  (∀ f c, f ∈ files → c ∈ findings_of f → well_shaped c) →
  ∃ os, run_outcomes files = Ok os.
Proof.
  intros Hshape.
  destruct (mapM_Ok_total file_outcomes files) as [per_file Hm].
  - intros f Hf. unfold Orchestrator.file_outcomes.
    destruct (truthy_patch f) as [p|]; [|by eexists].
    apply mapM_Ok_total. intros c Hc. apply outcome_well_shaped. by apply (Hshape f).
  - exists (concat per_file). apply run_outcomes_Ok. by exists per_file.
Qed.

Lemma run_outcomes_length (files : list File) (os : list Outcome) :
  run_outcomes files = Ok os → length os = length (files ≫= findings_of).
Proof.
  intros Hrun. apply run_outcomes_Ok in Hrun as (per_file & Hm & ->).
  revert per_file Hm. induction files as [|f files IH]; intros per_file Hm.
  - by injection Hm as <-.
  - rewrite mapM_cons_eq in Hm.
    apply bind_Ok_inv in Hm as (os_f & Hos_f & Hm).
    apply bind_Ok_inv in Hm as (rest & Hrest & Hm). injection Hm as <-.
    cbn [concat]. rewrite bind_cons, !length_app, (IH rest Hrest). f_equal.
    apply file_outcomes_Ok in Hos_f as [[Hnone ->]|(p & Hp & Hos_f)].
    + by rewrite (findings_of_no_patch f Hnone).
    + by apply mapM_Ok_length in Hos_f.
Qed.

Lemma run_outcomes_app (files1 files2 : list File) (os1 os2 : list Outcome) :
  run_outcomes files1 = Ok os1 → run_outcomes files2 = Ok os2 →
  run_outcomes (files1 ++ files2) = Ok (os1 ++ os2).
Proof.
  intros H1 H2.
  apply run_outcomes_Ok in H1 as (pf1 & Hm1 & ->).
  apply run_outcomes_Ok in H2 as (pf2 & Hm2 & ->).
  apply run_outcomes_Ok. exists (pf1 ++ pf2).
  split; [by apply mapM_app_Ok|]. by rewrite concat_app.
Qed.

Lemma loop_result_drafts (files : list File) (cs : list ReviewComment)
    (os : list Outcome) :
  draft_review_comments (loop_result files cs os)
  = filter (λ d, is_new (get_existing_comments cs) d) (inlines os).
Proof. reflexivity. Qed.

Lemma loop_result_generals (files : list File) (cs : list ReviewComment)
    (os : list Outcome) :
  general_comments (loop_result files cs os) = generals os.
Proof. reflexivity. Qed.

Lemma loop_result_skipped (files : list File) (cs : list ReviewComment)
    (os : list Outcome) :
  skipped_files (loop_result files cs os)
  = filename <$> filter (λ f, fails_filter f) files.
Proof. reflexivity. Qed.

Lemma loop_result_reviewed (files : list File) (cs : list ReviewComment)
    (os : list Outcome) :
  reviewed_files (loop_result files cs os)
  = filename <$> filter (λ f, passes_filter f) files.
Proof. reflexivity. Qed.

(** What [submit] does with the three lists. *)
Lemma submit_cases (st : Run) :
  (submit st = [ {| review_comments := draft_review_comments st;
                    review_body := compose_body st;
                    review_event := "COMMENT" |} ]
   ∧ (draft_review_comments st ≠ [] ∨ general_comments st ≠ []
      ∨ skipped_files st ≠ []))
  ∨ (submit st = []
     ∧ draft_review_comments st = [] ∧ general_comments st = []
     ∧ skipped_files st = []).
Proof.
  unfold submit.
  destruct (draft_review_comments st) as [|d ds];
    destruct (general_comments st) as [|g gs];
    destruct (skipped_files st) as [|k ks]; cbn [nonempty orb];
    first [by right | left; split; [done|]; by eauto].
Qed.

(** C6.  When the text of the model is not valid JSON, or is JSON but no
    array, or is the empty array, [review_code] returns the empty list
    of findings and raises nothing; the file loop then goes on: the step
    for that file returns a state, with both comment lists as they
    were. *)
Theorem bad_response_gives_no_findings (code file_path text : string) :
  messages_create (prompt instructions code file_path) = Ok text →
  ((∃ msg, json_loads text = Raise (JSONDecodeError msg))
   ∨ (∃ v, json_loads text = Ok v ∧ isinstance_list v = false)
   ∨ json_loads text = Ok (JList [])) →
  review_code instructions messages_create json_loads code file_path = Ok []
  ∧ ∀ (E : gmap string string) (st : Run) (file : File),
      filename file = file_path → get_contents file_path = Ok code →
      ∃ st', process_file E st file = Ok st'
        ∧ draft_review_comments st' = draft_review_comments st
        ∧ general_comments st' = general_comments st.
Proof.
  intros Htext Hbad.
  assert (Hrc : review_code instructions messages_create json_loads code file_path = Ok []).
  { unfold review_code. rewrite Htext. simpl.
    destruct Hbad as [[msg ->]|[(v & -> & Hv)| ->]]; simpl; [done| |done].
    by rewrite Hv. }
  split; [done|]. intros E st file Hname Hcontent.
  rewrite process_file_closed.
  assert (Hnil : findings_of file = []).
  { unfold Orchestrator.findings_of. rewrite Hname, Hcontent, Hrc.
    by destruct (bool_decide (status file = "removed")),
         (should_review_file fnmatch file_filter file_path),
         (truthy_patch file). }
  rewrite (findings_of_nil_outcomes file Hnil), bind_Ok.
  eexists. split; [done|]. simpl. by rewrite !app_nil_r.
Qed.

(** C7.  A draft enters the outgoing batch only when its key is absent
    from the index of existing comments, and a comment of the platform
    at a path and position has exactly the key that [run_review]
    computes for that path and position.  So, when the platform shows
    the comments of the first run next to the earlier ones, a second run
    over the same files with the same answers of the model puts no
    inline comment in its batch. *)
Theorem rerun_adds_no_inline_comment
    (files : list File) (cs1 cs2 : list ReviewComment) (st1 : Run) :
  review_loop files cs1 = Ok st1 →
  (∀ c, c ∈ cs1 → c ∈ cs2) →
  (∀ d, d ∈ draft_review_comments st1 →
     ∃ c, c ∈ cs2 ∧ rc_path c = path d ∧ rc_position c = Some (position d)) →
  (∀ d, d ∈ draft_review_comments st1 →
     get_existing_comments cs1 !! comment_key (path d) (position d) = None)
  ∧ (∀ c n, c ∈ cs2 → rc_position c = Some n →
     is_Some (get_existing_comments cs2 !! comment_key (rc_path c) n))
  ∧ ∃ st2 reviews, review_loop files cs2 = Ok st2
      ∧ draft_review_comments st2 = []
      ∧ run_review files cs2 = Ok reviews
      ∧ ∀ r, r ∈ reviews → review_comments r = [].
Proof.
  intros Hrun Hold Hposted.
  apply review_loop_Ok in Hrun as (os & Hos & ->).
  rewrite loop_result_drafts in Hposted. setoid_rewrite loop_result_drafts.
  split_and!.
  - intros d Hd. apply list_elem_of_filter in Hd as [Hnew _].
    by apply is_new_true, Is_true_true.
  - intros c n. apply existing_key_at_position.
  - assert (Hnone : filter (λ d, is_new (get_existing_comments cs2) d)
                      (inlines os) = []).
    { apply elem_of_nil_inv. intros d Hd.
      apply list_elem_of_filter in Hd as [Hnew Hd].
      apply Is_true_true, is_new_true in Hnew.
      assert (Hin : is_Some (get_existing_comments cs2
                               !! comment_key (path d) (position d))).
      { destruct (is_new (get_existing_comments cs1) d) eqn:Hnew1.
        - destruct (Hposted d) as (c & Hc & Hpath & Hpos).
          { apply list_elem_of_filter. split; [by apply Is_true_true|done]. }
          rewrite <- Hpath. by apply existing_key_at_position.
        - apply is_new_false, get_existing_comments_key in Hnew1
            as (c & Hc & HK).
          apply get_existing_comments_key. exists c. split; [by apply Hold|done]. }
      rewrite Hnew in Hin. by destruct Hin. }
    exists (loop_result files cs2 os), (submit (loop_result files cs2 os)).
    split; [apply review_loop_Ok; by exists os|].
    rewrite loop_result_drafts, Hnone. split; [done|].
    split; [by rewrite run_review_closed, Hos|].
    intros r Hr.
    destruct (submit_cases (loop_result files cs2 os)) as [[Hs _]|[Hs _]];
      rewrite Hs in Hr.
    + apply list_elem_of_singleton in Hr as ->. cbn [review_comments].
      by rewrite loop_result_drafts.
    + by apply not_elem_of_nil in Hr.
Qed.

(** C8.  A finding whose line no key within distance 3 resolves, and
    which has a text, adds nothing to the inline batch: the step for it
    appends one general comment, whose body opens with the header that
    names the file and the line, for every index of existing comments
    and every state, so nothing is checked before it is added.  In a
    run that ends, for a file that is reviewed, that body is among the
    general comments and stands in the body of the one review that the
    run submits, whatever comments exist already; and every comment of
    the inline batch comes from a finding whose line did resolve. *)
Theorem unresolved_finding_is_general_only
    (file : File) (p : string) (c line_num text suggestion : json) :
  truthy_patch file = Some p →
  subscript c "line" = Ok line_num →
  find_closest_line_of line_num (calculate_line_positions p) 3 = Ok None →
  subscript c "comment" = Ok text →
  get_default c "suggestion" (JStr EmptyString) = Ok suggestion →
  let comment_body :=
    "**In file " +:+ filename file +:+ ", line " +:+ py_str line_num +:+ ":**"
      +:+ nl +:+ nl +:+ py_str text +:+ nl +:+ nl +:+ "```suggestion" +:+ nl
      +:+ py_str suggestion +:+ nl +:+ "```" in
  (∀ (E : gmap string string) (st : Run),
     process_comment E file st c =
       Ok {| draft_review_comments := draft_review_comments st;
             general_comments := general_comments st ++ [comment_body];
             skipped_files := skipped_files st;
             reviewed_files := reviewed_files st |})
  ∧ (∀ (files : list File) (cs : list ReviewComment) (st : Run)
       (content : string) (findings : list json),
       review_loop files cs = Ok st →
       file ∈ files → status file ≠ "removed" →
       should_review_file fnmatch file_filter (filename file) = true →
       get_contents (filename file) = Ok content →
       review_code instructions messages_create json_loads content (filename file)
         = Ok findings →
       c ∈ findings →
       comment_body ∈ general_comments st
       ∧ (∃ before after,
            run_review files cs =
              Ok [ {| review_comments := draft_review_comments st;
                      review_body := before +:+ comment_body +:+ after;
                      review_event := "COMMENT" |} ])
       ∧ (∀ cs', ∃ st', review_loop files cs' = Ok st'
                       ∧ general_comments st' = general_comments st)
       ∧ (∀ d, d ∈ draft_review_comments st →
            ∃ f' p' c' line' mapped_line,
              f' ∈ files ∧ truthy_patch f' = Some p' ∧ c' ∈ findings_of f'
              ∧ subscript c' "line" = Ok line'
              ∧ find_closest_line_of line' (calculate_line_positions p') 3
                = Ok (Some mapped_line)
              ∧ calculate_line_positions p' !! mapped_line = Some (position d)
              ∧ path d = filename f')).
Proof.
  intros Hp Hline Hfind Htext Hsugg comment_body.
  assert (Hbody : general_body (filename file) line_num c = Ok comment_body).
  { unfold Orchestrator.general_body, Orchestrator.suggestion_block.
    rewrite Htext, bind_Ok, Hsugg, !bind_Ok. reflexivity. }
  split.
  - intros E st. unfold Orchestrator.process_comment.
    by rewrite Hline, bind_Ok, Hp, Hfind, bind_Ok, Hbody, bind_Ok.
  - intros files cs st content findings Hrun Hfile Hstatus Hpass Hcontent Hrc Hc.
    apply review_loop_Ok in Hrun as (os & Hos & ->).
    rewrite <- (findings_of_reviewed file p content findings
                  Hstatus Hpass Hcontent Hp Hrc) in Hc.
    destruct (run_outcomes_elem files os file p c Hos Hfile Hp Hc)
      as (o & Ho & Hin).
    rewrite (outcome_unresolved file p c line_num Hline Hfind), Hbody, bind_Ok in Ho.
    injection Ho as <-.
    assert (Hgen : comment_body ∈ general_comments (loop_result files cs os)).
    { rewrite loop_result_generals. by apply elem_of_generals. }
    split_and!.
    + done.
    + destruct (compose_body_general _ _ Hgen) as (before & after & Hcompose).
      exists before, after. rewrite run_review_closed, Hos, bind_Ok.
      destruct (submit_cases (loop_result files cs os))
        as [[-> _]|(_ & _ & Hnil & _)].
      * by rewrite Hcompose.
      * rewrite Hnil in Hgen. by apply not_elem_of_nil in Hgen.
    + intros cs'. exists (loop_result files cs' os).
      split; [apply review_loop_Ok; by exists os|done].
    + intros d Hd. rewrite loop_result_drafts in Hd.
      apply list_elem_of_filter in Hd as [_ Hd]. apply elem_of_inlines in Hd.
      destruct (run_outcomes_origin files os _ Hos Hd) as (f' & p' & c' & Hf' & Hp' & Hc' & Hout).
      destruct (outcome_inline_inv f' p' c' d Hout)
        as (line' & m & Hl' & Hfind' & Hpos & Hpath & _).
      by exists f', p', c', line', m.
Qed.

(** C9.  [run_review] raises again what the loop raised, and then
    submits nothing.  When the loop ends, [run_review] calls
    [create_review] once, with the whole inline batch, the event COMMENT
    and the body made of the summary line, the reviewed files, the
    skipped files, the count of suggestions or the praise, and the
    general comments, exactly when the inline batch, the general
    comments or the skipped files are not empty; it makes no call
    exactly when all three are empty.  The loop ends when every finding
    has the shape that the prompt asks for. *)
Theorem one_review_with_comment_event (files : list File) (cs : list ReviewComment) :
  (∀ e, review_loop files cs = Raise e → run_review files cs = Raise e)
  ∧ (∀ st, review_loop files cs = Ok st →
       let review :=
         {| review_comments := draft_review_comments st;
            review_body :=
              "🤖 Code Review Summary:" +:+ nl +:+ nl
              +:+ match reviewed_files st with
                  | [] => EmptyString
                  | _ => "Reviewed " +:+ pretty (length (reviewed_files st))
                           +:+ " files:" +:+ nl
                           +:+ String.concat EmptyString
                                 ((λ name, "- " +:+ name +:+ nl) <$> reviewed_files st)
                  end
              +:+ match skipped_files st with
                  | [] => EmptyString
                  | _ => nl +:+ "Skipped " +:+ pretty (length (skipped_files st))
                           +:+ " files based on filter configuration:" +:+ nl
                           +:+ String.concat EmptyString
                                 ((λ name, "- " +:+ name +:+ nl) <$> skipped_files st)
                  end
              +:+ nl
              +:+ match draft_review_comments st with
                  | [] => "✨ Great job! The code looks clean and well-written."
                  | _ => "Found " +:+ pretty (length (draft_review_comments st))
                           +:+ " suggestions for improvement."
                  end
              +:+ match general_comments st with
                  | [] => EmptyString
                  | _ => nl +:+ nl +:+ "### Additional Comments:" +:+ nl +:+ nl
                           +:+ String.concat (nl +:+ nl) (general_comments st)
                  end;
            review_event := "COMMENT" |} in
       (run_review files cs = Ok [review]
        ↔ draft_review_comments st ≠ [] ∨ general_comments st ≠ []
            ∨ skipped_files st ≠ [])
       ∧ (run_review files cs = Ok []
          ↔ draft_review_comments st = [] ∧ general_comments st = []
              ∧ skipped_files st = [])
       ∧ (run_review files cs = Ok [review] ∨ run_review files cs = Ok []))
  ∧ ((∀ f c, f ∈ files → c ∈ findings_of f → well_shaped c) →
     ∃ st, review_loop files cs = Ok st).
Proof.
  split_and!.
  - intros e He. unfold Orchestrator.run_review. by rewrite He.
  - intros st Hrun review.
    assert (Hsubmit : run_review files cs = Ok (submit st)).
    { unfold Orchestrator.run_review. by rewrite Hrun. }
    assert (Hreview : {| review_comments := draft_review_comments st;
                         review_body := compose_body st;
                         review_event := "COMMENT" |} = review).
    { unfold review. f_equal.
      by rewrite compose_body_text, (bullets_concat (reviewed_files st)),
           (bullets_concat (skipped_files st)),
           (join_concat (nl +:+ nl) (general_comments st)). }
    rewrite Hsubmit.
    destruct (submit_cases st) as [[-> Hsome]|(-> & Hd & Hg & Hk)];
      rewrite ?Hreview.
    + split_and!; [done| |by left].
      split; [done|]. intros (Hd & Hg & Hk). by destruct Hsome as [?|[?|?]].
    + split_and!; [|done|by right].
      split; [done|]. by intros [?|[?|?]].
  - intros Hshape. destruct (run_outcomes_total files Hshape) as [os Hos].
    exists (loop_result files cs os). apply review_loop_Ok. by exists os.
Qed.

(** C10.  A file that is not removed and passes the filter is added to
    the reviewed files before its content is fetched: when the content
    cannot be fetched or the file has no patch, the step for the file
    adds its name to the reviewed files and does nothing else.  A file
    that the filter rejects is added to the skipped files and to nothing
    else.  In a run that ends, the reviewed files are the files, not
    removed, that pass the filter, and the skipped files exactly those
    that the filter rejects; a passing file is among the reviewed files
    and not among the skipped ones, and every review that the run
    submits lists the reviewed files, each on a line of its own, under
    the line that counts them. *)
Theorem reviewed_before_fetch (files : list File) (cs : list ReviewComment) :
  (∀ (E : gmap string string) (st : Run) (f : File),
     status f ≠ "removed" →
     should_review_file fnmatch file_filter (filename f) = true →
     (truthy_patch f = None ∨ ∃ e, get_contents (filename f) = Raise e) →
     process_file E st f =
       Ok {| draft_review_comments := draft_review_comments st;
             general_comments := general_comments st;
             skipped_files := skipped_files st;
             reviewed_files := reviewed_files st ++ [filename f] |})
  ∧ (∀ (E : gmap string string) (st : Run) (f : File),
       status f ≠ "removed" →
       should_review_file fnmatch file_filter (filename f) = false →
       process_file E st f =
         Ok {| draft_review_comments := draft_review_comments st;
               general_comments := general_comments st;
               skipped_files := skipped_files st ++ [filename f];
               reviewed_files := reviewed_files st |})
  ∧ (∀ st, review_loop files cs = Ok st →
       reviewed_files st = filename <$> filter (λ f, passes_filter f) files
       ∧ skipped_files st = filename <$> filter (λ f, fails_filter f) files
       ∧ (∀ name, name ∈ skipped_files st ↔
            ∃ f, f ∈ files ∧ filename f = name ∧ status f ≠ "removed"
                 ∧ should_review_file fnmatch file_filter name = false)
       ∧ (∀ f, f ∈ files → status f ≠ "removed" →
            should_review_file fnmatch file_filter (filename f) = true →
            filename f ∈ reviewed_files st
            ∧ (filename f ∉ skipped_files st)
            ∧ ∀ reviews r, run_review files cs = Ok reviews → r ∈ reviews →
                ∃ rest,
                  review_body r =
                    "🤖 Code Review Summary:" +:+ nl +:+ nl +:+ "Reviewed "
                      +:+ pretty (length (reviewed_files st)) +:+ " files:" +:+ nl
                      +:+ String.concat EmptyString
                            ((λ name, "- " +:+ name +:+ nl) <$> reviewed_files st)
                      +:+ rest)).
Proof.
  split_and!.
  - intros E st f Hs Hpass Hskip. unfold Orchestrator.process_file.
    rewrite bool_decide_eq_false_2 by done. rewrite Hpass. cbn [negb].
    destruct Hskip as [Hnone|[e He]].
    + rewrite Hnone. by destruct (get_contents (filename f)).
    + by rewrite He.
  - intros E st f Hs Hfail. unfold Orchestrator.process_file.
    rewrite bool_decide_eq_false_2 by done. by rewrite Hfail.
  - intros st Hrun.
    assert (Hsubmit : run_review files cs = Ok (submit st)).
    { unfold Orchestrator.run_review. by rewrite Hrun. }
    apply review_loop_Ok in Hrun as (os & Hos & Hst).
    assert (Hrev : reviewed_files st = filename <$> filter (λ f, passes_filter f) files)
      by (by rewrite Hst).
    assert (Hskipped : skipped_files st = filename <$> filter (λ f, fails_filter f) files)
      by (by rewrite Hst).
    split; [done|]. split; [done|]. split.
    + intros name. rewrite Hskipped, list_elem_of_fmap. split.
      * intros (f & -> & Hf). apply list_elem_of_filter in Hf as [Hfail Hf].
        exists f. unfold Orchestrator.fails_filter in Hfail.
        destruct (decide (status f = "removed")) as [Hs|Hs].
        { rewrite bool_decide_eq_true_2 in Hfail by done. done. }
        destruct (should_review_file fnmatch file_filter (filename f)); [|done].
        rewrite bool_decide_eq_false_2 in Hfail by done. done.
      * intros (f & Hf & <- & Hs & Hfail). exists f. split; [done|].
        apply list_elem_of_filter. split; [|done].
        unfold Orchestrator.fails_filter. rewrite Hfail.
        by rewrite bool_decide_eq_false_2.
    + intros f Hf Hs Hpass.
      assert (Hin : filename f ∈ reviewed_files st).
      { rewrite Hrev. apply list_elem_of_fmap_2, list_elem_of_filter. split; [|done].
        unfold Orchestrator.passes_filter. rewrite Hpass.
        by rewrite bool_decide_eq_false_2. }
      split_and!.
      * done.
      * rewrite Hskipped. intros Hsk.
        apply list_elem_of_fmap in Hsk as (g & Hname & Hg).
        apply list_elem_of_filter in Hg as [Hfail _].
        unfold Orchestrator.fails_filter in Hfail.
        rewrite <- Hname, Hpass in Hfail. by destruct (bool_decide _).
      * intros reviews r Hreviews Hr. rewrite Hsubmit in Hreviews.
        injection Hreviews as <-.
        destruct (submit_cases st) as [[Hsub _]|[Hsub _]]; rewrite Hsub in Hr;
          [|by apply not_elem_of_nil in Hr].
        apply list_elem_of_singleton in Hr as ->. cbn [review_body].
        destruct (compose_body_reviewed st) as [rest Hbody].
        { intros Hnil. rewrite Hnil in Hin. by apply not_elem_of_nil in Hin. }
        exists rest. by rewrite Hbody, bullets_concat.
Qed.

End OrchestratorFacts.

(** ** The claims with hypotheses, at the inputs of the scenarios *)

Section Witnesses.
Import Mapper Filter Reviewer Orchestrator Scenario.

Local Abbreviation review_loop_at loads :=
  (review_loop fnmatch_glob config contents task answer loads no_repr no_float).
Local Abbreviation run_review_at loads :=
  (run_review fnmatch_glob config contents task answer loads no_repr no_float).

Lemma bad_response_gives_no_findings_witness :
  review_code task answer loads_fails "print(1)" "a.py" = Ok []
  ∧ ∃ st', process_file fnmatch_glob config contents task answer loads_fails
             no_repr no_float ∅ run_init file_a = Ok st'
      ∧ draft_review_comments st' = [] ∧ general_comments st' = [].
Proof.
  destruct (bad_response_gives_no_findings fnmatch_glob config contents
              task answer loads_fails no_repr no_float "print(1)" "a.py" "[...]"
              eq_refl (or_introl (ex_intro _ "Expecting value" eq_refl)))
    as [Hnone Hstep].
  split; [exact Hnone|]. exact (Hstep ∅ run_init file_a eq_refl eq_refl).
Defined.

Lemma rerun_adds_no_inline_comment_witness :
  ∃ st2 reviews,
    review_loop_at loads changed posted = Ok st2
    ∧ draft_review_comments st2 = []
    ∧ run_review_at loads changed posted = Ok reviews
    ∧ ∀ r, r ∈ reviews → review_comments r = [].
Proof.
  refine (proj2 (proj2 (rerun_adds_no_inline_comment fnmatch_glob config contents
            task answer loads no_repr no_float changed [] posted first_run
            _ _ _))).
  - vm_compute. reflexivity.
  - intros c Hc. by apply not_elem_of_nil in Hc.
  - intros d Hd. apply list_elem_of_singleton in Hd as ->.
    eexists. split; [apply list_elem_of_singleton; reflexivity|].
    split; reflexivity.
Defined.

Lemma unresolved_finding_is_general_only_witness :
  process_comment no_repr no_float ∅ file_a run_init far_finding =
    Ok {| draft_review_comments := [];
          general_comments :=
            [ "**In file a.py, line 50:**" +:+ nl +:+ nl +:+ "Dead code."
                +:+ nl +:+ nl +:+ "```suggestion" +:+ nl +:+ nl +:+ "```" ];
          skipped_files := []; reviewed_files := [] |}
  ∧ far_body ∈ general_comments first_run
  ∧ ∃ before after,
      run_review_at loads changed [] =
        Ok [ {| review_comments := draft_review_comments first_run;
                review_body := before +:+ far_body +:+ after;
                review_event := "COMMENT" |} ].
Proof.
  destruct (unresolved_finding_is_general_only fnmatch_glob config contents
              task answer loads no_repr no_float file_a patch_a far_finding
              (JInt 50) (JStr "Dead code.") (JStr EmptyString)
              eq_refl eq_refl eq_refl eq_refl eq_refl) as [Hstep Hrun].
  split; [exact (Hstep ∅ run_init)|].
  destruct (Hrun changed [] first_run "print(1)" [near_finding; far_finding])
    as (Hin & Hreview & _).
  - vm_compute. reflexivity.
  - apply list_elem_of_In. simpl. tauto.
  - discriminate.
  - reflexivity.
  - reflexivity.
  - reflexivity.
  - apply list_elem_of_In. simpl. tauto.
  - split; [exact Hin|exact Hreview].
Defined.

Lemma one_review_with_comment_event_witness :
  run_review_at loads changed [] =
    Ok [ {| review_comments :=
              [ {| path := "a.py"; position := 3; body := near_body |} ];
            review_body := first_summary;
            review_event := "COMMENT" |} ]
  ∧ run_review_at loads_bare changed [] = Raise (KeyError "comment")
  ∧ ∃ st, review_loop_at loads changed [] = Ok st.
Proof.
  destruct (one_review_with_comment_event fnmatch_glob config contents
              task answer loads no_repr no_float changed [])
    as (_ & Hends & Htotal).
  destruct (one_review_with_comment_event fnmatch_glob config contents
              task answer loads_bare no_repr no_float changed [])
    as (Hraises & _ & _).
  split_and!.
  - assert (Hrun : review_loop_at loads changed [] = Ok first_run)
      by (vm_compute; reflexivity).
    destruct (Hends first_run Hrun) as ((_ & Hone) & _ & _).
    apply Hone. left. discriminate.
  - apply Hraises. vm_compute. reflexivity.
  - apply Htotal. intros f c Hf Hc.
    apply list_elem_of_In in Hf. simpl in Hf.
    destruct Hf as [<-|[<-|[<-|[<-|[<-|[]]]]]];
      vm_compute in Hc; apply list_elem_of_In in Hc; simpl in Hc;
      try (by destruct Hc).
    destruct Hc as [<-|[<-|[]]].
    + exists {[ "line" := JInt 2; "comment" := JStr "Use a constant.";
                "suggestion" := JStr "X = 1" ]}, 2, (JStr "Use a constant.").
      split_and!; reflexivity.
    + exists {[ "line" := JInt 50; "comment" := JStr "Dead code." ]}, 50,
        (JStr "Dead code.").
      split_and!; reflexivity.
Defined.

Lemma reviewed_before_fetch_witness :
  process_file fnmatch_glob config contents task answer loads no_repr no_float
    ∅ run_init {| filename := "gone.py"; status := "added"; patch := Some patch_a |}
  = Ok {| draft_review_comments := []; general_comments := [];
          skipped_files := []; reviewed_files := ["gone.py"] |}
  ∧ "gone.py" ∈ reviewed_files first_run ∧ "logo.py" ∈ reviewed_files first_run
  ∧ ("gone.py" ∉ skipped_files first_run)
  ∧ ("package.lock" ∈ skipped_files first_run).
Proof.
  destruct (reviewed_before_fetch fnmatch_glob config contents task answer loads
              no_repr no_float changed []) as (Hstep & _ & Hrun).
  split.
  { apply (Hstep ∅ run_init
             {| filename := "gone.py"; status := "added"; patch := Some patch_a |});
      [discriminate|reflexivity|].
    right. by exists (Exception "404"). }
  destruct (Hrun first_run) as (_ & _ & Hskipped & Hfile);
    [vm_compute; reflexivity|].
  assert (Hgone : {| filename := "gone.py"; status := "added";
                     patch := Some patch_a |} ∈ changed).
  { apply list_elem_of_In. simpl. tauto. }
  assert (Hlogo : {| filename := "logo.py"; status := "renamed";
                     patch := None |} ∈ changed).
  { apply list_elem_of_In. simpl. tauto. }
  destruct (Hfile _ Hgone) as (H1 & H2 & _); [discriminate|reflexivity|].
  destruct (Hfile _ Hlogo) as (H3 & _); [discriminate|reflexivity|].
  split_and!; [exact H1|exact H3|exact H2|].
  apply Hskipped.
  exists {| filename := "package.lock"; status := "modified"; patch := Some patch_a |}.
  split_and!; [apply list_elem_of_In; simpl; tauto|reflexivity|discriminate|reflexivity].
Defined.

End Witnesses.

(** * Further properties of the script *)

(** ** The position map *)

Section MapperInvariant.
Import Mapper Vocabulary.

Lemma isdigit_value (c : ascii) : isdigit c = true → 0 ≤ digit_value c ≤ 9.
Proof.
  unfold isdigit, digit_value. intros H.
  apply andb_true_iff in H as [H1 H2].
  apply Nat.leb_le in H1, H2. lia.
Qed.

Lemma int_acc_nonneg (ds : string) (acc : Z) :
  all_digits ds = true → 0 ≤ acc → 0 ≤ int_acc acc ds.
Proof.
  revert acc. induction ds as [|c ds IH]; intros acc Hds Hacc; [done|].
  simpl in Hds. apply andb_true_iff in Hds as [Hc Hds].
  simpl. apply IH; [done|]. pose proof (isdigit_value c Hc). lia.
Qed.

Lemma span_digits_digits (s ds rest : string) :
  span_digits s = (ds, rest) → all_digits ds = true.
Proof.
  revert ds rest. induction s as [|c s IH]; intros ds rest Hspan; simpl in Hspan.
  - by injection Hspan as <- <-.
  - destruct (isdigit c) eqn:Hc.
    + destruct (span_digits s) as [ds' rest'] eqn:Hs. injection Hspan as <- <-.
      simpl. rewrite Hc. by apply (IH ds' rest').
    + by injection Hspan as <- <-.
Qed.

Lemma match_header_at_digits (s g : string) :
  match_header_at s = Some g → all_digits g = true.
Proof.
  unfold match_header_at.
  destruct (eat "@@ -" s) as [s1|]; [|done]. cbn [mbind option_bind].
  destruct (span_digits s1) as [old_start s2].
  destruct (truthy old_start); [|done].
  destruct (span_digits (default s2 (eat "," s2))) as [old_len s4].
  destruct (eat " +" s4) as [s5|]; [|done]. cbn [mbind option_bind].
  destruct (span_digits s5) as [new_start s6] eqn:Hspan.
  destruct (truthy new_start); [|done]. intros [= <-].
  by apply (span_digits_digits s5 new_start s6).
Qed.

Lemma re_search_digits (line g : string) :
  re_search line = Some g → all_digits g = true.
Proof.
  induction line as [|c line IH]; cbn [re_search];
    destruct (match_header_at _) eqn:Hm; try done;
    intros [= <-]; by eapply match_header_at_digits.
Qed.

(** The line number a header gives is never negative. *)
Lemma hunk_header_nonneg (line : string) (n : Z) :
  hunk_header line = Some n → 0 ≤ n.
Proof.
  unfold hunk_header. destruct (startswith "@@" line); [|done].
  destruct (re_search line) as [g|] eqn:Hg; [|done]. intros [= <-].
  apply int_acc_nonneg; [by apply (re_search_digits line)|done].
Qed.

Lemma opening_not_removal (line : string) :
  startswith "@@" line = true → startswith "-" line = false.
Proof.
  destruct (startswith "-" line) eqn:Hm; [|done].
  intros Ho. by rewrite (startswith_minus_not_opening line Hm) in Ho.
Qed.

Lemma scan_inv_init : scan_inv [] scan_init.
Proof.
  unfold scan_inv, scan_init. simpl. split_and!; [done|done| |].
  - intros L v H. by rewrite lookup_empty in H.
  - intros L1 L2 v H. by rewrite lookup_empty in H.
Qed.

(** One counted line keeps the invariant. *)
Lemma scan_inv_step (seen : list string) (st : Scan) (line : string) :
  scan_inv seen st →
  in_hunk st = true ∨ startswith "@@" line = true →
  scan_inv (seen ++ [line]) (scan_line st line)
  ∧ in_hunk (scan_line st line) = true.
Proof.
  intros (Hpos & Hcur & Hent & Hinj) Hcount.
  assert (Hin1 : startswith "@@" line || in_hunk st = true).
  { destruct Hcount as [->| ->]; [apply orb_true_r|done]. }
  assert (Hold : ∀ L v, positions st !! L = Some v →
            0 ≤ L ∧ 1 ≤ v ≤ position st + 1
            ∧ ∃ l, (seen ++ [line]) !! Z.to_nat (v - 1) = Some l
                ∧ startswith "-" l = false ∧ hunk_header l = None).
  { intros L v HL. destruct (Hent L v HL) as (HL0 & Hv & l & Hl & Hk).
    split_and!; [done|lia|lia|]. exists l. split; [|done].
    by apply lookup_app_l_Some. }
  unfold scan_line. rewrite Hin1.
  destruct (hunk_header line) as [n|] eqn:Hh; [|cbn [negb]].
  - split; [|done]. unfold scan_inv. cbn [positions position current_line].
    rewrite length_app. simpl. split_and!; [lia| |done|done].
    by apply (hunk_header_nonneg line).
  - destruct (startswith "-" line) eqn:Hm; cbn [negb].
    + split; [|done]. unfold scan_inv. cbn [positions position current_line].
      rewrite length_app. simpl. split_and!; [lia|done|done|done].
    + split; [|done]. unfold scan_inv. cbn [positions position current_line].
      rewrite length_app. simpl. split_and!; [lia|lia| |].
      * intros L v HL. apply lookup_insert_Some in HL as [[<- <-]|[Hne HL]].
        -- split_and!; [done|lia|lia|]. exists line. split; [|done].
           replace (Z.to_nat (position st + 1 - 1)) with (length seen) by lia.
           by apply list_lookup_middle.
        -- by apply Hold.
      * intros L1 L2 v H1 H2.
        apply lookup_insert_Some in H1 as [[<- <-]|[Hne1 H1]];
          apply lookup_insert_Some in H2 as [[<- Hv]|[Hne2 H2]].
        -- done.
        -- destruct (Hent _ _ H2). lia.
        -- destruct (Hent _ _ H1). lia.
        -- by apply (Hinj L1 L2 v).
Qed.

Lemma scan_inv_lines (ls seen : list string) (st : Scan) :
  scan_inv seen st → in_hunk st = true →
  scan_inv (seen ++ ls) (scan_lines st ls).
Proof.
  revert seen st. induction ls as [|line ls IH]; intros seen st Hinv Hin.
  - by rewrite app_nil_r.
  - destruct (scan_inv_step seen st line Hinv (or_introl Hin)) as [Hinv' Hin'].
    unfold scan_lines in *. cbn [foldl].
    replace (seen ++ line :: ls) with ((seen ++ [line]) ++ ls)
      by (by rewrite <- app_assoc).
    by apply IH.
Qed.

(** The loop does on a patch what it does on its counted lines. *)
Lemma scan_counted_lines (lines : list string) :
  scan_lines scan_init lines = scan_lines scan_init (counted_lines lines).
Proof.
  induction lines as [|line lines IH]; [done|].
  cbn [counted_lines]. destruct (startswith "@@" line) eqn:Ho; [done|].
  rewrite <- IH. unfold scan_lines. cbn [foldl].
  by rewrite scan_line_outside.
Qed.

Lemma scan_inv_patch (lines : list string) :
  scan_inv (counted_lines lines) (scan_lines scan_init lines).
Proof.
  rewrite scan_counted_lines.
  assert (Hhead : counted_lines lines = []
                  ∨ ∃ l ls, counted_lines lines = l :: ls
                            ∧ startswith "@@" l = true).
  { induction lines as [|line lines IH]; [by left|].
    cbn [counted_lines]. destruct (startswith "@@" line) eqn:Ho; [|done].
    right. by exists line, lines. }
  destruct Hhead as [->|(l & ls & -> & Ho)]; [apply scan_inv_init|].
  destruct (scan_inv_step [] scan_init l scan_inv_init (or_intror Ho))
    as [Hinv Hin].
  unfold scan_lines. cbn [foldl].
  by apply (scan_inv_lines ls [l]).
Qed.

End MapperInvariant.

Section MapperProperties.
Import Mapper Vocabulary.

(** X1.  Every entry of the map has a line number that is not negative
    and a position between 1 and the number of counted lines, and the
    counted line at that position is no removal and no recognised hunk
    header. *)
Theorem positions_point_at_kept_lines (patch : string) (L v : Z) :
  calculate_line_positions patch !! L = Some v →
  0 ≤ L
  ∧ 1 ≤ v ≤ Z.of_nat (length (counted_lines (split newline patch)))
  ∧ ∃ line, counted_lines (split newline patch) !! Z.to_nat (v - 1) = Some line
      ∧ startswith "-" line = false ∧ hunk_header line = None.
Proof.
  intros HL. destruct (scan_inv_patch (split newline patch))
    as (Hpos & _ & Hent & _).
  destruct (Hent L v HL) as (H0 & Hv & Hline).
  rewrite Hpos in Hv. done.
Qed.

Lemma positions_point_at_kept_lines_witness :
  0 ≤ 11
  ∧ 1 ≤ 7 ≤ Z.of_nat (length (counted_lines (split newline Scenario.patch_two_hunks)))
  ∧ ∃ line, counted_lines (split newline Scenario.patch_two_hunks)
              !! Z.to_nat (7 - 1) = Some line
      ∧ startswith "-" line = false ∧ hunk_header line = None.
Proof.
  apply (positions_point_at_kept_lines Scenario.patch_two_hunks 11 7).
  vm_compute. reflexivity.
Defined.

(** X2.  No two line numbers of the map share a position. *)
Theorem positions_injective (patch : string) (L1 L2 v : Z) :
  calculate_line_positions patch !! L1 = Some v →
  calculate_line_positions patch !! L2 = Some v →
  L1 = L2.
Proof.
  destruct (scan_inv_patch (split newline patch)) as (_ & _ & _ & Hinj).
  apply Hinj.
Qed.

Lemma positions_injective_witness : (2 : Z) = 2.
Proof.
  apply (positions_injective Scenario.patch_a 2 2 3); vm_compute; reflexivity.
Defined.

Lemma split_nonempty (c : ascii) (s : string) : split c s ≠ [].
Proof.
  destruct s as [|d s]; [done|]. cbn [split].
  destruct (decide (d = c)); [done|]. by destruct (split c s).
Qed.

Lemma split_snoc_sep (c : ascii) (s : string) :
  split c (s +:+ String c EmptyString) = split c s ++ [EmptyString].
Proof.
  unfold String.app. induction s as [|d s IH]; cbn [String.append split].
  - by rewrite decide_True.
  - rewrite IH. destruct (decide (d = c)); [done|].
    pose proof (split_nonempty c s). by destruct (split c s).
Qed.

(** X3.  A newline at the end of the patch text is read as one more
    line, the empty one: when the text ends inside a hunk, the map gets
    an entry for the line after the last one, at the position after the
    last one. *)
Theorem trailing_newline_adds_entry (patch : string) :
  calculate_line_positions (patch +:+ nl) =
    let st := scan_lines scan_init (split newline patch) in
    if in_hunk st
    then <[current_line st := position st + 1]> (positions st)
    else positions st.
Proof.
  unfold calculate_line_positions, nl. rewrite split_snoc_sep, scan_lines_app.
  cbv zeta. set (st := scan_lines scan_init (split newline patch)).
  unfold scan_lines. cbn [foldl]. unfold scan_line.
  change (hunk_header EmptyString) with (@None Z).
  change (startswith "@@" EmptyString) with false.
  change (startswith "-" EmptyString) with false.
  cbn [orb negb]. by destruct (in_hunk st).
Qed.

Lemma kept_before_0 (body : list string) : kept_before 0 body = 0%nat.
Proof. done. Qed.

Lemma kept_before_S (j : nat) (l : string) (body : list string) :
  kept_before (S j) (l :: body) =
    ((if startswith "-" l then 0 else 1) + kept_before j body)%nat.
Proof.
  unfold kept_before. cbn [take].
  destruct (startswith "-" l) eqn:Hl.
  - rewrite filter_cons_False; [done|]. by rewrite Hl.
  - rewrite filter_cons_True; [done|]. done.
Qed.

(** The lines of a hunk after its header, from any state inside a
    hunk: the kept lines get consecutive line numbers from
    [current_line] on and the positions of their places; the earlier
    entries stay unless their line number is given again. *)
Lemma scan_hunk_body (body : list string) (st : Scan) :
  in_hunk st = true →
  Forall (λ l, startswith "@@" l = false) body →
  ∀ L v, positions (scan_lines st body) !! L = Some v ↔
    (∃ j line, body !! j = Some line ∧ startswith "-" line = false
       ∧ L = current_line st + Z.of_nat (kept_before j body)
       ∧ v = position st + Z.of_nat j + 1)
    ∨ (positions st !! L = Some v
       ∧ ¬ (current_line st ≤ L
            < current_line st + Z.of_nat (kept_before (length body) body))).
Proof.
  intros Hin Hbody. revert st Hin.
  induction Hbody as [|l body Hl Hbody IH]; intros st Hin L v.
  - cbn [scan_lines foldl length]. rewrite kept_before_0. split.
    + intros H. right. split; [done|lia].
    + intros [(j & line & Hj & _)|[H _]]; [by rewrite lookup_nil in Hj|done].
  - unfold scan_lines. cbn [foldl length].
    change (foldl scan_line ?a body) with (scan_lines a body).
    pose proof (hunk_header_not_opening l Hl) as Hh.
    rewrite kept_before_S.
    destruct (startswith "-" l) eqn:Hm.
    + assert (Hst : scan_line st l =
                {| positions := positions st; position := position st + 1;
                   current_line := current_line st; in_hunk := true |}).
      { unfold scan_line. rewrite Hh, Hin, Hm, orb_true_r. done. }
      rewrite Hst, IH by done. cbn [positions position current_line].
      split.
      * intros [(j & line & Hj & Hk & -> & ->)|[Hold Hout]].
        -- left. exists (S j), line. rewrite kept_before_S, Hm.
           split_and!; [done|done|done|lia].
        -- right. split; [done|]. lia.
      * intros [(j & line & Hj & Hk & -> & ->)|[Hold Hout]].
        -- destruct j as [|j]; [simpl in Hj; congruence|].
           left. exists j, line. rewrite kept_before_S, Hm.
           split_and!; [done|done|done|lia].
        -- right. split; [done|]. lia.
    + rewrite (scan_line_kept st l Hin Hh Hm), IH by done.
      cbn [positions position current_line].
      split.
      * intros [(j & line & Hj & Hk & -> & ->)|[Hold Hout]].
        -- left. exists (S j), line. rewrite kept_before_S, Hm.
           split_and!; [done|done|lia|lia].
        -- apply lookup_insert_Some in Hold as [[<- <-]|[Hne Hold]].
           ++ left. exists 0%nat, l. rewrite kept_before_0.
              split_and!; [done|done|lia|lia].
           ++ right. split; [done|]. lia.
      * intros [(j & line & Hj & Hk & -> & ->)|[Hold Hout]].
        -- destruct j as [|j].
           ++ right. rewrite kept_before_0.
              replace (current_line st + Z.of_nat 0) with (current_line st) by lia.
              replace (position st + Z.of_nat 0 + 1) with (position st + 1) by lia.
              rewrite lookup_insert_eq. split; [done|lia].
           ++ left. exists j, line. rewrite kept_before_S, Hm.
              split_and!; [done|done|lia|lia].
        -- right. rewrite lookup_insert_ne by lia. split; [done|lia].
Qed.

(** X4.  A patch of one hunk: a header and, after it, lines of which
    none starts with two at-signs.  The map holds exactly one entry for
    each line of the body that is no removal: [j] lines into the body
    it has position [j + 2], and its line number is the new start of
    the header plus the number of lines kept before it. *)
Theorem single_hunk_positions
    (patch header : string) (body : list string) (new_start : Z) :
  split newline patch = header :: body →
  hunk_header header = Some new_start →
  Forall (λ l, startswith "@@" l = false) body →
  ∀ L v, calculate_line_positions patch !! L = Some v ↔
    ∃ j line, body !! j = Some line ∧ startswith "-" line = false
      ∧ L = new_start + Z.of_nat (kept_before j body)
      ∧ v = Z.of_nat j + 2.
Proof.
  intros Hsplit Hh Hbody L v. unfold calculate_line_positions.
  rewrite Hsplit. unfold scan_lines. cbn [foldl].
  change (foldl scan_line ?a body) with (scan_lines a body).
  rewrite (scan_line_header scan_init header new_start Hh).
  rewrite scan_hunk_body by done.
  cbn [positions position current_line scan_init]. split.
  - intros [(j & line & Hj & Hk & -> & ->)|[Hold _]].
    + exists j, line. split_and!; [done|done|done|lia].
    + by rewrite lookup_empty in Hold.
  - intros (j & line & Hj & Hk & -> & ->). left.
    exists j, line. split_and!; [done|done|done|lia].
Qed.

Lemma single_hunk_positions_witness :
  calculate_line_positions Scenario.patch_a !! 3 = Some 4 ↔
    ∃ j line, [" line1"; "+line2"; " line3"; " line4"] !! j = Some line
      ∧ startswith "-" line = false
      ∧ 3 = 1 + Z.of_nat (kept_before j [" line1"; "+line2"; " line3"; " line4"])
      ∧ 4 = Z.of_nat j + 2.
Proof.
  apply (single_hunk_positions Scenario.patch_a "@@ -1,3 +1,4 @@"
           [" line1"; "+line2"; " line3"; " line4"] 1).
  - vm_compute. reflexivity.
  - vm_compute. reflexivity.
  - repeat constructor.
Defined.

Lemma counted_lines_head (lines : list string) :
  counted_lines lines = []
  ∨ ∃ l ls, counted_lines lines = l :: ls ∧ startswith "@@" l = true.
Proof.
  induction lines as [|line lines IH]; [by left|].
  cbn [counted_lines]. destruct (startswith "@@" line) eqn:Ho; [|done].
  right. by exists line, lines.
Qed.

(** X19.  A hunk after earlier counted lines.  When the counted lines
    of a patch are some earlier lines, then a hunk header, then lines
    of which none starts with two at-signs, the map holds, for each
    line of that body that is no removal, the new start of the header
    plus the number of lines kept before it, at the position counted
    over the whole patch; the entries of the earlier lines stay, except
    those whose line number the hunk gives again. *)
Theorem later_hunk_positions
    (patch header : string) (earlier body : list string) (new_start : Z) :
  counted_lines (split newline patch) = earlier ++ header :: body →
  hunk_header header = Some new_start →
  Forall (λ l, startswith "@@" l = false) body →
  ∀ L v, calculate_line_positions patch !! L = Some v ↔
    (∃ j line, body !! j = Some line ∧ startswith "-" line = false
       ∧ L = new_start + Z.of_nat (kept_before j body)
       ∧ v = Z.of_nat (length earlier) + Z.of_nat j + 2)
    ∨ (positions (scan_lines scan_init earlier) !! L = Some v
       ∧ ¬ (new_start ≤ L
            < new_start + Z.of_nat (kept_before (length body) body))).
Proof.
  intros Hcounted Hh Hbody L v. unfold calculate_line_positions.
  rewrite scan_counted_lines, Hcounted, scan_lines_app.
  assert (Hpos : position (scan_lines scan_init earlier)
                 = Z.of_nat (length earlier)).
  { assert (Hearlier : counted_lines earlier = earlier).
    { destruct earlier as [|e earlier]; [done|].
      destruct (counted_lines_head (split newline patch))
        as [Hnil|(l & ls & Heq & Ho)]; rewrite Hcounted in *; [done|].
      injection Heq as -> _. cbn [counted_lines]. by rewrite Ho. }
    destruct (scan_inv_patch earlier) as (Hp & _). by rewrite Hearlier in Hp. }
  set (st := scan_lines scan_init earlier) in *.
  unfold scan_lines at 1. cbn [foldl].
  change (foldl scan_line ?a body) with (scan_lines a body).
  rewrite (scan_line_header st header new_start Hh).
  rewrite scan_hunk_body by done.
  cbn [positions position current_line]. rewrite Hpos. split.
  - intros [(j & line & Hj & Hk & -> & ->)|Hold]; [|by right].
    left. exists j, line. split_and!; [done|done|done|lia].
  - intros [(j & line & Hj & Hk & -> & ->)|Hold]; [|by right].
    left. exists j, line. split_and!; [done|done|done|lia].
Qed.

Lemma later_hunk_positions_witness :
  calculate_line_positions Scenario.patch_two_hunks !! 11 = Some 7 ↔
    (∃ j line, [" x"; "+y"; " z"] !! j = Some line ∧ startswith "-" line = false
       ∧ 11 = 10 + Z.of_nat (kept_before j [" x"; "+y"; " z"])
       ∧ 7 = Z.of_nat (length ["@@ -1,2 +1,2 @@"; " a"; "-b"; "+c"]) + Z.of_nat j + 2)
    ∨ (positions (scan_lines scan_init ["@@ -1,2 +1,2 @@"; " a"; "-b"; "+c"])
         !! 11 = Some 7
       ∧ ¬ (10 ≤ 11 < 10 + Z.of_nat (kept_before (length [" x"; "+y"; " z"])
                                        [" x"; "+y"; " z"]))).
Proof.
  apply (later_hunk_positions Scenario.patch_two_hunks "@@ -10,2 +10,3 @@"
           ["@@ -1,2 +1,2 @@"; " a"; "-b"; "+c"] [" x"; "+y"; " z"] 10).
  - vm_compute. reflexivity.
  - vm_compute. reflexivity.
  - repeat constructor.
Defined.

End MapperProperties.

(** ** Hunk headers as git writes them *)

Section HeaderText.
Import Mapper Vocabulary.

Lemma all_digits_app (s1 s2 : string) :
  all_digits (s1 +:+ s2) = all_digits s1 && all_digits s2.
Proof.
  unfold String.app. induction s1 as [|c s1 IH]; [done|].
  cbn [String.append all_digits]. by rewrite IH, andb_assoc.
Qed.

Lemma int_acc_app (s1 s2 : string) (acc : Z) :
  int_acc acc (s1 +:+ s2) = int_acc (int_acc acc s1) s2.
Proof.
  unfold String.app. revert acc. induction s1 as [|c s1 IH]; intros acc; [done|].
  cbn [String.append int_acc]. by rewrite IH.
Qed.

Lemma pretty_N_char_digit (m : N) :
  (m < 10)%N →
  isdigit (pretty_N_char m) = true ∧ digit_value (pretty_N_char m) = Z.of_N m.
Proof.
  intros Hm.
  assert (m = 0 ∨ m = 1 ∨ m = 2 ∨ m = 3 ∨ m = 4 ∨ m = 5 ∨ m = 6 ∨ m = 7
          ∨ m = 8 ∨ m = 9)%N as Hcases by lia.
  repeat (destruct Hcases as [->|Hcases]; [by vm_compute|]).
  subst m. by vm_compute.
Qed.

(** The digits that [pretty_N_go] puts in front of [s] read back as the
    number. *)
Lemma pretty_N_go_digits (x : N) (s : string) :
  ∃ ds, pretty_N_go x s = ds +:+ s ∧ all_digits ds = true
    ∧ (∀ acc, int_acc acc ds = acc * 10 ^ Z.of_nat (String.length ds) + Z.of_N x)
    ∧ ((0 < x)%N → ds ≠ EmptyString).
Proof.
  revert s. induction (N.lt_wf_0 x) as [x _ IH]; intros s.
  assert (x = 0 ∨ 0 < x)%N as [->|Hx] by lia.
  - exists EmptyString. rewrite pretty_N_go_0.
    split_and!; [done|done| |lia]. intros acc. simpl. lia.
  - rewrite pretty_N_go_step by done.
    destruct (IH (x `div` 10)%N (N.div_lt x 10 Hx eq_refl)
                (String (pretty_N_char (x `mod` 10)) s))
      as (ds & -> & Hds & Hint & _).
    destruct (pretty_N_char_digit (x `mod` 10)%N) as [Hc Hval].
    { by apply N.mod_lt. }
    exists (ds +:+ String (pretty_N_char (x `mod` 10)) EmptyString).
    split_and!.
    + by rewrite string_app_assoc.
    + rewrite all_digits_app, Hds. cbn [all_digits]. by rewrite Hc.
    + intros acc. rewrite int_acc_app, Hint. cbn [int_acc]. rewrite Hval.
      assert (Hlen : String.length (ds +:+ String (pretty_N_char (x `mod` 10)) EmptyString)
                     = S (String.length ds)).
      { unfold String.app. clear. induction ds as [|c ds IH]; [done|].
        cbn [String.append String.length]. by rewrite IH. }
      rewrite Hlen, Nat2Z.inj_succ, Z.pow_succ_r by lia.
      pose proof (N.div_mod x 10 ltac:(done)) as Hdm.
      rewrite Hdm at 3. rewrite N2Z.inj_add, N2Z.inj_mul. lia.
    + intros _. by destruct ds.
Qed.

(** Printing a natural number gives digits that [int] reads back. *)
Lemma pretty_N_digits (n : N) :
  all_digits (pretty n) = true ∧ int (pretty n) = Z.of_N n
  ∧ truthy (pretty n) = true.
Proof.
  unfold pretty, pretty_N. case_decide as Hn; [by subst|].
  destruct (pretty_N_go_digits n EmptyString) as (ds & -> & Hds & Hint & Hne).
  rewrite string_app_nil_r. split_and!; [done| |].
  - unfold int. rewrite Hint. lia.
  - destruct ds; [|done]. destruct Hne; [lia|done].
Qed.

Lemma span_digits_app (ds s : string) :
  all_digits ds = true → stops_digits s →
  span_digits (ds +:+ s) = (ds, s).
Proof.
  intros Hds Hs. unfold String.app. induction ds as [|c ds IH].
  - cbn [String.append]. destruct s as [|d s]; [done|].
    cbn [span_digits]. simpl in Hs. by rewrite Hs.
  - cbn [all_digits] in Hds. apply andb_true_iff in Hds as [Hc Hds].
    cbn [String.append span_digits]. by rewrite Hc, (IH Hds).
Qed.

Lemma eat_app (prefix s : string) : eat prefix (prefix +:+ s) = Some s.
Proof.
  unfold String.app. induction prefix as [|c prefix IH]; [by destruct s|].
  cbn [String.append eat]. by rewrite decide_True.
Qed.

Lemma re_search_here (line g : string) :
  match_header_at line = Some g → re_search line = Some g.
Proof. intros H. destruct line; cbn [re_search]; by rewrite H. Qed.

Lemma len_text_rest (len : option N) (rest : string) :
  stops_digits rest → eat "," rest = None →
  stops_digits (len_text len +:+ rest)
  ∧ span_digits (default (len_text len +:+ rest)
                   (eat "," (len_text len +:+ rest)))
    = (from_option pretty EmptyString len, rest).
Proof.
  intros Hrest Hcomma. destruct len as [n|]; cbn [len_text from_option].
  - destruct (pretty_N_digits n) as (Hds & _ & _).
    rewrite string_app_assoc. split; [done|].
    rewrite eat_app. cbn [default]. by apply span_digits_app.
  - change (EmptyString +:+ rest) with rest. split; [done|].
    rewrite Hcomma. cbn [default]. by apply (span_digits_app EmptyString).
Qed.

(** X5.  A hunk header as git writes it, with or without the two
    lengths and with any heading after the closing at-signs, is
    recognised, and the line number read from it is its new start. *)
Theorem hunk_header_of_text (old_start : N) (old_len : option N)
    (new_start : N) (new_len : option N) (heading : string) :
  hunk_header (hunk_header_text old_start old_len new_start new_len heading)
  = Some (Z.of_N new_start).
Proof.
  unfold hunk_header, hunk_header_text.
  change (startswith "@@" ("@@ -" +:+ ?s)) with true. cbv iota.
  destruct (pretty_N_digits old_start) as (Hold & _ & Holdt).
  destruct (pretty_N_digits new_start) as (Hnew & Hint & Hnewt).
  set (tail := " @@" +:+ heading).
  set (after_new := len_text new_len +:+ tail).
  set (after_old := " +" +:+ pretty new_start +:+ after_new).
  assert (Hafter_new : stops_digits after_new).
  { unfold after_new. by destruct new_len. }
  destruct (len_text_rest old_len after_old) as [Hstop Hspan]; [done|done|].
  assert (Hm : match_header_at
                 ("@@ -" +:+ pretty old_start +:+ len_text old_len +:+ after_old)
               = Some (pretty new_start)).
  { unfold match_header_at. rewrite eat_app. cbn [mbind option_bind].
    rewrite (span_digits_app _ _ Hold Hstop), Holdt, Hspan.
    unfold after_old. rewrite eat_app. cbn [mbind option_bind].
    by rewrite (span_digits_app _ _ Hnew Hafter_new), Hnewt. }
  rewrite (re_search_here _ _ Hm). cbn [fmap option_fmap option_map].
  by rewrite Hint.
Qed.

End HeaderText.

(** ** The nearest line, for any distance *)

Section ClosestLineProperties.
Import Mapper Reviewer Orchestrator.

Lemma nearest_not_key_far (L : Z) (M : gmap Z Z) (r : Z) :
  M !! L = None → nearest L M r → 1 ≤ Z.abs (r - L).
Proof.
  intros HL [Hr _]. apply elem_of_dom in Hr as [v Hv].
  assert (r ≠ L) by congruence. lia.
Qed.

(** X6.  For any [max_distance]: a line that is found stays the answer
    under every larger [max_distance]; with a [max_distance] of zero or
    less only an exact hit is returned; and a line that is returned is a
    key of the map, so that reading the map at it does not fail. *)
Theorem find_closest_line_distance (L : Z) (M : gmap Z Z) (d d' k : Z) :
  (find_closest_line L M d = Some k → d ≤ d' →
     find_closest_line L M d' = Some k)
  ∧ (d ≤ 0 →
     find_closest_line L M d = if decide (L ∈ dom M) then Some L else None)
  ∧ (find_closest_line L M d = Some k → ∃ v, getitem M k = Ok v).
Proof.
  split_and!.
  - intros Hfind Hle.
    destruct (find_closest_line_cases L M d)
      as [[[v Hv] Hd]|[(_ & _ & Hd)|(HL & r & Hr & Hd)]];
      rewrite Hd in Hfind; [|done|].
    + injection Hfind as <-.
      destruct (find_closest_line_cases L M d')
        as [[_ ->]|[(HL & _ & _)|(HL & _)]]; [done|congruence|congruence].
    + destruct (Z.leb_spec (Z.abs (r - L)) d) as [Hin|]; [|done].
      injection Hfind as <-.
      destruct (find_closest_line_cases L M d')
        as [[[v Hv] _]|[(_ & Hdom & _)|(_ & r' & Hr' & ->)]].
      * congruence.
      * destruct Hr as [Hr _]. rewrite Hdom in Hr. set_solver.
      * rewrite (nearest_unique L M r' r Hr' Hr).
        destruct (Z.leb_spec (Z.abs (r - L)) d'); [done|lia].
  - intros Hd.
    destruct (find_closest_line_cases L M d)
      as [[HL ->]|[(HL & _ & ->)|(HL & r & Hr & ->)]].
    + rewrite decide_True; [done|]. by apply elem_of_dom.
    + rewrite decide_False; [done|]. by apply not_elem_of_dom.
    + rewrite decide_False by (by apply not_elem_of_dom).
      pose proof (nearest_not_key_far L M r HL Hr).
      destruct (Z.leb_spec (Z.abs (r - L)) d); [lia|done].
  - intros Hfind. apply find_closest_line_is_key, elem_of_dom in Hfind as [v Hv].
    exists v. unfold getitem. by rewrite Hv.
Qed.

Lemma find_closest_line_distance_witness :
  let M : gmap Z Z := {[ 1 := 2; 4 := 5; 5 := 3; 11 := 4 ]} in
  find_closest_line 8 M 7 = Some 5
  ∧ find_closest_line 8 M 0 = (if decide (8 ∈ dom M) then Some 8 else None)
  ∧ ∃ v, getitem M 5 = Ok v.
Proof.
  intros M.
  destruct (find_closest_line_distance 8 M 3 7 5) as (Hmono & _ & Hkey).
  destruct (find_closest_line_distance 8 M 0 0 5) as (_ & Hzero & _).
  split_and!.
  - apply Hmono; [vm_compute; reflexivity|lia].
  - apply Hzero. lia.
  - apply Hkey. vm_compute. reflexivity.
Defined.

End ClosestLineProperties.

(** ** The patterns of the filter *)

Section FilterProperties.
Import Filter.

Lemma lstrip_head (s : string) :
  lstrip s = EmptyString
  ∨ ∃ c r, lstrip s = String c r ∧ isspace c = false.
Proof.
  induction s as [|c s IH]; [by left|].
  cbn [lstrip]. destruct (isspace c) eqn:Hc; [done|]. right. by exists c, s.
Qed.

Lemma rstrip_head (c : ascii) (r : string) :
  isspace c = false → ∃ r', rstrip (String c r) = String c r'.
Proof.
  intros Hc. cbn [rstrip]. rewrite Hc. destruct (rstrip r); by eexists.
Qed.

Lemma rstrip_idem (s : string) : rstrip (rstrip s) = rstrip s.
Proof.
  induction s as [|c s IH]; [done|].
  cbn [rstrip]. destruct (rstrip s) as [|d r] eqn:Hr.
  - destruct (isspace c) eqn:Hc; [done|]. cbn [rstrip]. by rewrite Hc.
  - cbn [rstrip] in IH |- *. by rewrite IH.
Qed.

(** Trimming twice is trimming once. *)
Lemma strip_idem (s : string) : strip (strip s) = strip s.
Proof.
  unfold strip. destruct (lstrip_head s) as [->|(c & r & -> & Hc)]; [done|].
  destruct (rstrip_head c r Hc) as [r' Hr]. rewrite Hr.
  cbn [lstrip]. rewrite Hc, <- Hr. apply rstrip_idem.
Qed.

Lemma clean_trimmed (raw p : string) :
  p ∈ clean raw → p ≠ EmptyString ∧ strip p = p.
Proof.
  intros Hp. apply elem_of_clean in Hp as (piece & _ & Hne & ->).
  split; [done|apply strip_idem].
Qed.

(** X8.  Every pattern of a configuration read from the environment is
    trimmed and not empty, and its whitelist is never empty. *)
Theorem from_env_patterns_trimmed (env : gmap string string) (p : string) :
  (p ∈ whitelist_patterns (from_env env) ∨ p ∈ blacklist_patterns (from_env env) →
     p ≠ EmptyString ∧ strip p = p)
  ∧ whitelist_patterns (from_env env) ≠ [].
Proof.
  unfold from_env. cbn [whitelist_patterns blacklist_patterns]. split.
  - intros [Hp|Hp]; [|by apply (clean_trimmed _ _ Hp)].
    destruct (clean (getenv env "PR_REVIEW_WHITELIST" EmptyString)) eqn:Hw.
    + by apply list_elem_of_singleton in Hp as ->.
    + rewrite <- Hw in Hp. by apply (clean_trimmed _ _ Hp).
  - by destruct (clean (getenv env "PR_REVIEW_WHITELIST" EmptyString)).
Qed.

Lemma from_env_patterns_trimmed_witness :
  "docs/*" ≠ EmptyString ∧ strip "docs/*" = "docs/*".
Proof.
  destruct (from_env_patterns_trimmed
              {[ "PR_REVIEW_WHITELIST" := " *.py ,, docs/* " ]} "docs/*")
    as [Htrim _].
  apply Htrim. left. vm_compute. apply list_elem_of_In. simpl. tauto.
Defined.

(** X9.  Without configuration every file is reviewed: when both lists
    are empty after cleaning (the variables unset, empty, or holding
    only blanks and commas) and the matcher lets the star match every
    name, [should_review_file] accepts every file name. *)
Theorem default_filter_accepts_all
    (fnmatch : string → string → bool) (env : gmap string string) (F : string) :
  (∀ name, fnmatch name "*" = true) →
  clean (getenv env "PR_REVIEW_WHITELIST" EmptyString) = [] →
  clean (getenv env "PR_REVIEW_BLACKLIST" EmptyString) = [] →
  should_review_file fnmatch (from_env env) F = true.
Proof.
  intros Hstar Hw Hb. unfold should_review_file, from_env.
  cbn [whitelist_patterns blacklist_patterns]. rewrite Hw, Hb.
  cbn [existsb]. by rewrite Hstar.
Qed.

Lemma default_filter_accepts_all_witness :
  should_review_file fnmatch_glob (from_env {[ "PR_REVIEW_BLACKLIST" := " , " ]})
    "src/Module.php" = true.
Proof.
  apply default_filter_accepts_all.
  - apply glob_star.
  - vm_compute. reflexivity.
  - vm_compute. reflexivity.
Defined.

(** X10.  More blacklist patterns never admit a file, and more
    whitelist patterns never reject one: a file accepted under a longer
    blacklist is accepted under the shorter one, and a file accepted
    under a whitelist is accepted under every longer one. *)
Theorem filter_monotone (fnmatch : string → string → bool)
    (wl wl' bl bl' : list string) (F : string) :
  (should_review_file fnmatch
     {| whitelist_patterns := wl; blacklist_patterns := bl ++ bl' |} F = true →
   should_review_file fnmatch
     {| whitelist_patterns := wl; blacklist_patterns := bl |} F = true)
  ∧ (should_review_file fnmatch
       {| whitelist_patterns := wl; blacklist_patterns := bl |} F = true →
     should_review_file fnmatch
       {| whitelist_patterns := wl ++ wl'; blacklist_patterns := bl |} F = true).
Proof.
  unfold should_review_file. cbn [whitelist_patterns blacklist_patterns].
  rewrite !existsb_app. split.
  - destruct (existsb (fnmatch F) bl), (existsb (fnmatch F) bl'),
      (existsb (fnmatch F) wl); done.
  - destruct (existsb (fnmatch F) bl), (existsb (fnmatch F) wl),
      (existsb (fnmatch F) wl'); done.
Qed.

Lemma filter_monotone_witness :
  should_review_file fnmatch_glob
    {| whitelist_patterns := ["*.py"]; blacklist_patterns := ["vendor/*"] |}
    "a.py" = true
  ∧ should_review_file fnmatch_glob
      {| whitelist_patterns := ["*.py"; "*.md"]; blacklist_patterns := ["vendor/*"] |}
      "a.py" = true.
Proof.
  destruct (filter_monotone fnmatch_glob ["*.py"] ["*.md"] ["vendor/*"] ["*.lock"]
              "a.py") as [Hbl Hwl].
  assert (H : should_review_file fnmatch_glob
                {| whitelist_patterns := ["*.py"]; blacklist_patterns := ["vendor/*"] |}
                "a.py" = true).
  { apply Hbl. vm_compute. reflexivity. }
  split; [exact H|exact (Hwl H)].
Defined.

End FilterProperties.

(** ** The index of existing comments *)

Section IndexProperties.
Import Vocabulary Reviewer Orchestrator.

Lemma lacks_app (c : ascii) (s1 s2 : string) :
  lacks c (s1 +:+ s2) = lacks c s1 && lacks c s2.
Proof.
  unfold String.app. induction s1 as [|d s1 IH]; [done|].
  cbn [String.append lacks]. by rewrite IH, andb_assoc.
Qed.

Lemma digits_lack_colon (s : string) :
  all_digits s = true → lacks ":" s = true.
Proof.
  induction s as [|d s IH]; [done|]. cbn [all_digits lacks].
  intros [Hd Hs]%andb_true_iff. rewrite (IH Hs), andb_true_r.
  apply negb_true_iff, bool_decide_eq_false. by intros ->.
Qed.

Lemma pretty_Z_shape (n : Z) :
  ∃ sign ds, pretty n = sign +:+ ds ∧ all_digits ds = true
    ∧ truthy ds = true ∧ (sign = EmptyString ∨ sign = "-").
Proof.
  destruct n as [|q|q]; unfold pretty, pretty_Z.
  - exists EmptyString, "0". by split_and!; [| | |left].
  - destruct (pretty_N_digits (N.pos q)) as (Hds & _ & Ht).
    exists EmptyString, (pretty (N.pos q)). by split_and!; [| | |left].
  - destruct (pretty_N_digits (N.pos q)) as (Hds & _ & Ht).
    exists "-", (pretty (N.pos q)). by split_and!; [| | |right].
Qed.

Lemma str_position_lacks_colon (pos : option Z) :
  lacks ":" (str_position pos) = true.
Proof.
  destruct pos as [n|]; [|done]. cbn [str_position].
  destruct (pretty_Z_shape n) as (sign & ds & -> & Hds & _ & Hsign).
  rewrite lacks_app, (digits_lack_colon ds Hds).
  by destruct Hsign as [-> | ->].
Qed.

Lemma str_position_inj (p1 p2 : option Z) :
  str_position p1 = str_position p2 → p1 = p2.
Proof.
  assert (Hnone : ∀ n : Z, pretty n ≠ "None").
  { intros n Hn. destruct (pretty_Z_shape n) as (sign & ds & Heq & Hds & Ht & Hsign).
    rewrite Hn in Heq. destruct Hsign as [-> | ->].
    - change (EmptyString +:+ ds) with ds in Heq. by subst ds.
    - destruct ds; discriminate Heq. }
  destruct p1 as [n1|], p2 as [n2|]; cbn [str_position]; intros Heq.
  - f_equal. by apply (inj pretty).
  - by destruct (Hnone n1).
  - by destruct (Hnone n2).
  - done.
Qed.

(** The last colon of a key separates the path from the position. *)
Lemma key_split (p1 p2 s1 s2 : string) :
  lacks ":" s1 = true → lacks ":" s2 = true →
  p1 +:+ ":" +:+ s1 = p2 +:+ ":" +:+ s2 → p1 = p2 ∧ s1 = s2.
Proof.
  intros H1 H2. unfold String.app. revert p2.
  induction p1 as [|c p1 IH]; intros [|c2 p2]; cbn [String.append]; intros Heq.
  - by injection Heq as ->.
  - injection Heq as <- ->. change (String.append ?a ?b) with (a +:+ b) in H1.
    rewrite lacks_app in H1. cbn [lacks] in H1.
    rewrite bool_decide_eq_true_2, andb_false_r in H1 by done. done.
  - injection Heq as -> <-. change (String.append ?a ?b) with (a +:+ b) in H2.
    rewrite lacks_app in H2. cbn [lacks] in H2.
    rewrite bool_decide_eq_true_2, andb_false_r in H2 by done. done.
  - injection Heq as -> Heq. destruct (IH p2 Heq) as [-> ->]. done.
Qed.

Lemma index_key_inj (p1 p2 : string) (pos1 pos2 : option Z) :
  p1 +:+ ":" +:+ str_position pos1 = p2 +:+ ":" +:+ str_position pos2 →
  p1 = p2 ∧ pos1 = pos2.
Proof.
  intros Heq. apply key_split in Heq as [-> Hpos];
    [|apply str_position_lacks_colon..].
  split; [done|]. by apply str_position_inj.
Qed.

(** X11.  The key of a comment determines its place: two keys are equal
    only for the same path and the same position, whatever characters
    the paths hold, and the key of an existing comment equals the key
    computed for a finding only when the comment has that path and that
    position. *)
Theorem comment_key_injective (p1 p2 : string) (n1 n2 : Z) (c : ReviewComment) :
  (comment_key p1 n1 = comment_key p2 n2 → p1 = p2 ∧ n1 = n2)
  ∧ (rc_path c +:+ ":" +:+ str_position (rc_position c) = comment_key p1 n1 →
     rc_path c = p1 ∧ rc_position c = Some n1).
Proof.
  split.
  - intros Heq. destruct (index_key_inj p1 p2 (Some n1) (Some n2) Heq) as [-> Hn].
    by injection Hn as ->.
  - intros Heq. by apply (index_key_inj _ _ _ (Some n1)).
Qed.

Lemma comment_key_injective_witness :
  ("src/a:b.py" = "src/a:b.py" ∧ (12 : Z) = 12)
  ∧ ("src/a:b.py" = "src/a:b.py" ∧ Some 12 = Some 12).
Proof.
  destruct (comment_key_injective "src/a:b.py" "src/a:b.py" 12 12
              {| rc_path := "src/a:b.py"; rc_position := Some 12;
                 rc_body := "seen" |}) as [Hkey Hcomment].
  split; [apply Hkey|apply Hcomment]; reflexivity.
Defined.

Lemma get_existing_comments_snoc (cs : list ReviewComment) (c : ReviewComment) :
  get_existing_comments (cs ++ [c]) =
    <[rc_path c +:+ ":" +:+ str_position (rc_position c) := rc_body c]>
      (get_existing_comments cs).
Proof. unfold get_existing_comments. by rewrite foldl_snoc. Qed.

(** X12.  The index answers for a path and a position with the body of
    the last existing comment at that path and position, and with
    nothing when there is none. *)
Theorem existing_comment_lookup (cs : list ReviewComment) (p : string) (n : Z) :
  get_existing_comments cs !! comment_key p n =
    rc_body <$> last (filter (λ c, rc_path c = p ∧ rc_position c = Some n) cs).
Proof.
  induction cs as [|c cs IH] using rev_ind; [done|].
  rewrite get_existing_comments_snoc, filter_app.
  destruct (decide (rc_path c = p ∧ rc_position c = Some n)) as [[Hp Hn]|Hne].
  - rewrite filter_cons_True, filter_nil, last_snoc by done.
    unfold comment_key. rewrite <- Hp, Hn. cbn [str_position].
    by rewrite lookup_insert_eq.
  - rewrite filter_cons_False, filter_nil, app_nil_r by done.
    rewrite lookup_insert_ne; [done|].
    intros Heq. apply Hne. by apply (index_key_inj _ _ _ (Some n)).
Qed.

End IndexProperties.

(** ** The reviewer and the run *)

Section RunProperties.
Import Mapper Filter Vocabulary Reviewer Orchestrator.

Context (fnmatch : string → string → bool)
        (file_filter : FileFilterConfig)
        (get_contents : string → result string)
        (instructions : string)
        (messages_create : string → result string)
        (json_loads : string → result json)
        (repr : json → string)
        (float_closest : string → gmap Z Z → Z → result (option Z)).

Local Abbreviation review_code := (review_code instructions messages_create json_loads).
Local Abbreviation find_closest_line_of := (find_closest_line_of float_closest).
Local Abbreviation process_comment := (process_comment repr float_closest).
Local Abbreviation outcome := (outcome repr float_closest).
Local Abbreviation review_loop :=
  (review_loop fnmatch file_filter get_contents instructions messages_create
     json_loads repr float_closest).
Local Abbreviation run_review :=
  (run_review fnmatch file_filter get_contents instructions messages_create
     json_loads repr float_closest).
Local Abbreviation findings_of :=
  (findings_of fnmatch file_filter get_contents instructions messages_create json_loads).
Local Abbreviation file_outcomes :=
  (file_outcomes fnmatch file_filter get_contents instructions messages_create
     json_loads repr float_closest).
Local Abbreviation run_outcomes :=
  (run_outcomes fnmatch file_filter get_contents instructions messages_create
     json_loads repr float_closest).
Local Abbreviation loop_result := (loop_result fnmatch file_filter).
Local Abbreviation passes_filter := (passes_filter fnmatch file_filter).
Local Abbreviation fails_filter := (fails_filter fnmatch file_filter).

(** X7.  The step for one finding returns when the finding is an
    object with an integer under [line] and a value under [comment]:
    the lookup in the position map is made at a line that
    [find_closest_line] returned and cannot fail.  On a finding of
    another shape the step raises: what [comment['line']] raises, and
    [KeyError] for the key [comment] when the line is there and the text
    is not. *)
Theorem process_comment_returns
    (E : gmap string string) (file : File) (st : Run) (c : json) :
  (well_shaped c → ∃ st', process_comment E file st c = Ok st')
  ∧ (∀ e, subscript c "line" = Raise e → process_comment E file st c = Raise e)
  ∧ (∀ members n, c = JDict members → members !! "line" = Some (JInt n) →
       members !! "comment" = None → is_Some (truthy_patch file) →
       process_comment E file st c = Raise (KeyError "comment"))
  ∧ (∀ p n mapped_line, truthy_patch file = Some p →
       find_closest_line n (calculate_line_positions p) 3 = Some mapped_line →
       ∃ position,
         getitem (calculate_line_positions p) mapped_line = Ok position).
Proof.
  split_and!.
  - intros Hshape. destruct (truthy_patch file) as [p|] eqn:Hp.
    + rewrite (process_comment_closed repr float_closest E file p st c Hp).
      destruct (outcome_well_shaped repr float_closest file p c Hshape) as [o ->].
      by eexists.
    + destruct Hshape as (members & n & text & -> & Hl & _).
      unfold Orchestrator.process_comment. cbn [subscript].
      rewrite Hl, bind_Ok, Hp. by eexists.
  - intros e He. unfold Orchestrator.process_comment. by rewrite He.
  - intros members n -> Hl Ht [p Hp].
    unfold Orchestrator.process_comment. cbn [subscript]. rewrite Hl, bind_Ok, Hp.
    cbn [Orchestrator.find_closest_line_of]. rewrite bind_Ok.
    destruct (find_closest_line n (calculate_line_positions p) 3) as [m|] eqn:Hfind.
    + pose proof (find_closest_line_is_key _ _ _ _ Hfind) as Hkey.
      apply elem_of_dom in Hkey as [pos Hpos]. unfold getitem.
      rewrite Hpos, bind_Ok. unfold Orchestrator.suggestion_block.
      cbn [subscript]. by rewrite Ht.
    + unfold Orchestrator.general_body, Orchestrator.suggestion_block.
      cbn [subscript]. by rewrite Ht.
  - intros p n m Hp Hfind.
    pose proof (find_closest_line_is_key _ _ _ _ Hfind) as Hkey.
    apply elem_of_dom in Hkey as [pos Hpos]. exists pos.
    unfold getitem. by rewrite Hpos.
Qed.

(** X13.  [review_code] never raises.  Whatever the call of the model
    raises, and whatever [json.loads] raises, a decoding error or any
    other exception, the result is the empty list; the findings are
    returned exactly as decoded when the text is a JSON list. *)
Theorem review_code_catches_all (code file_path : string) :
  (∃ l, review_code code file_path = Ok l)
  ∧ (∀ e, messages_create (prompt instructions code file_path) = Raise e →
       review_code code file_path = Ok [])
  ∧ (∀ text e, messages_create (prompt instructions code file_path) = Ok text →
       json_loads text = Raise e → review_code code file_path = Ok [])
  ∧ (∀ text items, messages_create (prompt instructions code file_path) = Ok text →
       json_loads text = Ok (JList items) → review_code code file_path = Ok items).
Proof.
  split_and!.
  - apply review_code_returns.
  - intros e He. unfold Reviewer.review_code. by rewrite He.
  - intros text e Ht He. unfold Reviewer.review_code. rewrite Ht. cbn.
    rewrite He. by destruct e.
  - intros text items Ht Hl. unfold Reviewer.review_code. rewrite Ht. cbn.
    by rewrite Hl.
Qed.

Lemma run_outcomes_cons (f : File) (files : list File) :
  run_outcomes (f :: files) =
    (os ← file_outcomes f; rest ← run_outcomes files; Ok (os ++ rest)).
Proof.
  unfold Orchestrator.run_outcomes. rewrite mapM_cons_eq.
  destruct (file_outcomes f) as [os|e]; [|done]. rewrite !bind_Ok.
  by destruct (mapM file_outcomes files).
Qed.

Lemma removed_contributes_nothing (f : File) :
  status f = "removed" →
  file_outcomes f = Ok [] ∧ fails_filter f = false ∧ passes_filter f = false.
Proof.
  intros Hs. split.
  - apply findings_of_nil_outcomes.
    unfold Orchestrator.findings_of. by rewrite bool_decide_eq_true_2.
  - unfold Orchestrator.fails_filter, Orchestrator.passes_filter.
    by rewrite bool_decide_eq_true_2.
Qed.

Lemma run_removed (files : list File) :
  run_outcomes files = run_outcomes (filter (λ f, status f ≠ "removed") files)
  ∧ filter (λ f, fails_filter f) files
    = filter (λ f, fails_filter f) (filter (λ f, status f ≠ "removed") files)
  ∧ filter (λ f, passes_filter f) files
    = filter (λ f, passes_filter f) (filter (λ f, status f ≠ "removed") files).
Proof.
  induction files as [|f files (IH1 & IH2 & IH3)]; [done|].
  destruct (decide (status f = "removed")) as [Hs|Hs].
  - destruct (removed_contributes_nothing f Hs) as (Ho & Hfail & Hpass).
    rewrite (filter_cons_False (λ f, status f ≠ "removed")) by naive_solver.
    rewrite run_outcomes_cons, Ho, bind_Ok.
    rewrite (filter_cons_False (λ f, fails_filter f))
      by (by apply Is_true_false).
    rewrite (filter_cons_False (λ f, passes_filter f))
      by (by apply Is_true_false).
    split_and!; [|done|done].
    rewrite <- IH1. by destruct (run_outcomes files).
  - rewrite (filter_cons_True (λ f, status f ≠ "removed")) by done.
    rewrite !run_outcomes_cons, <- IH1. split; [done|].
    destruct (fails_filter f) eqn:Hfail, (passes_filter f) eqn:Hpass;
      rewrite ?(filter_cons_True (λ f, fails_filter f))
        by (by apply Is_true_true);
      rewrite ?(filter_cons_False (λ f, fails_filter f))
        by (by apply Is_true_false);
      rewrite ?(filter_cons_True (λ f, passes_filter f))
        by (by apply Is_true_true);
      rewrite ?(filter_cons_False (λ f, passes_filter f))
        by (by apply Is_true_false);
      by rewrite <- ?IH2, <- ?IH3.
Qed.

(** X14.  Removed files leave no trace: a run over the changed files
    makes the same calls of [create_review] as the run over the files
    that are not removed. *)
Theorem removed_files_leave_no_trace (files : list File) (cs : list ReviewComment) :
  run_review files cs = run_review (filter (λ f, status f ≠ "removed") files) cs.
Proof.
  rewrite !run_review_closed.
  destruct (run_removed files) as (<- & Hfail & Hpass).
  destruct (run_outcomes files) as [os|e]; [|done]. rewrite !bind_Ok.
  unfold Orchestrator.loop_result. by rewrite <- Hfail, <- Hpass.
Qed.

(** X15.  In a run that ends no finding is lost without a reason: the
    inline comments and the general comments are never more than the
    findings that the reviewer returned for the files, and they are
    exactly as many when no review comment exists yet. *)
Theorem findings_accounted (files : list File) (cs : list ReviewComment) (st : Run) :
  review_loop files cs = Ok st →
  (length (draft_review_comments st) + length (general_comments st)
   ≤ length (files ≫= findings_of))%nat
  ∧ (cs = [] →
     (length (draft_review_comments st) + length (general_comments st)
      = length (files ≫= findings_of))%nat).
Proof.
  intros Hrun. apply review_loop_Ok in Hrun as (os & Hos & ->).
  rewrite loop_result_drafts, loop_result_generals.
  rewrite <- (run_outcomes_length _ _ _ _ _ _ _ _ files os Hos).
  pose proof (outcomes_split os) as Hsplit. split.
  - pose proof (length_filter (λ d, is_new (get_existing_comments cs) d)
                  (inlines os)). lia.
  - intros ->.
    assert (Hall : ∀ l : list Draft,
              filter (λ d, is_new (get_existing_comments []) d) l = l).
    { induction l as [|d l IH]; [done|].
      rewrite filter_cons_True; [by rewrite IH|].
      apply Is_true_true, is_new_true. apply lookup_empty. }
    rewrite Hall. lia.
Qed.

(** X16.  The loop over the files of two lists, one after the other:
    when both loops end, so does the loop over the joined list, and it
    gives the lists of the two separate loops, joined in that order:
    inline comments, general comments, skipped and reviewed files.
    When one of the loops raises, the loop over the joined list raises
    the same, the first list going first. *)
Theorem review_loop_app (files1 files2 : list File) (cs : list ReviewComment) :
  (∀ st1 st2,
     review_loop files1 cs = Ok st1 → review_loop files2 cs = Ok st2 →
     ∃ st, review_loop (files1 ++ files2) cs = Ok st
       ∧ draft_review_comments st = draft_review_comments st1 ++ draft_review_comments st2
       ∧ general_comments st = general_comments st1 ++ general_comments st2
       ∧ skipped_files st = skipped_files st1 ++ skipped_files st2
       ∧ reviewed_files st = reviewed_files st1 ++ reviewed_files st2)
  ∧ (∀ e, review_loop files1 cs = Raise e →
       review_loop (files1 ++ files2) cs = Raise e)
  ∧ (∀ st1 e, review_loop files1 cs = Ok st1 → review_loop files2 cs = Raise e →
       review_loop (files1 ++ files2) cs = Raise e).
Proof.
  split_and!.
  - intros st1 st2 H1 H2.
    apply review_loop_Ok in H1 as (os1 & Hos1 & ->).
    apply review_loop_Ok in H2 as (os2 & Hos2 & ->).
    exists (loop_result (files1 ++ files2) cs (os1 ++ os2)). split.
    + apply review_loop_Ok. exists (os1 ++ os2). split; [|done].
      by apply run_outcomes_app.
    + unfold Orchestrator.loop_result.
      cbn [extend draft_review_comments general_comments skipped_files
             reviewed_files run_init app].
      by rewrite inlines_app, generals_app, !filter_app, !fmap_app.
  - intros e H1. apply review_loop_Raise in H1. apply review_loop_Raise.
    unfold Orchestrator.run_outcomes in *.
    destruct (mapM file_outcomes files1) as [pf|e'] eqn:Hm; [done|].
    rewrite bind_Raise in H1. injection H1 as ->.
    by rewrite (mapM_app_Raise_l _ _ files2 _ Hm).
  - intros st1 e H1 H2. apply review_loop_Ok in H1 as (os1 & Hos1 & _).
    apply review_loop_Raise in H2. apply review_loop_Raise.
    apply run_outcomes_Ok in Hos1 as (pf1 & Hm1 & _).
    unfold Orchestrator.run_outcomes in *.
    destruct (mapM file_outcomes files2) as [pf|e'] eqn:Hm; [done|].
    rewrite bind_Raise in H2. injection H2 as ->.
    by rewrite (mapM_app_Raise_r _ _ _ _ _ Hm1 Hm).
Qed.

(** X17.  Every inline comment of a run that ends is placed in a real
    spot: its path is the name of a changed file that is not removed
    and passes the filter, its position is the value of that file's
    position map at some line, the line of the patch at that position is
    no removal, and no existing comment has its key. *)
Theorem inline_comment_is_placed
    (files : list File) (cs : list ReviewComment) (st : Run) :
  review_loop files cs = Ok st →
  ∀ d, d ∈ draft_review_comments st →
    ∃ f p L line,
      f ∈ files ∧ status f ≠ "removed"
      ∧ should_review_file fnmatch file_filter (filename f) = true
      ∧ path d = filename f ∧ truthy_patch f = Some p
      ∧ calculate_line_positions p !! L = Some (position d)
      ∧ counted_lines (split newline p) !! Z.to_nat (position d - 1) = Some line
      ∧ startswith "-" line = false
      ∧ get_existing_comments cs !! comment_key (path d) (position d) = None.
Proof.
  intros Hrun d Hd. apply review_loop_Ok in Hrun as (os & Hos & ->).
  rewrite loop_result_drafts in Hd.
  apply list_elem_of_filter in Hd as [Hnew Hd].
  apply Is_true_true, is_new_true in Hnew. apply elem_of_inlines in Hd.
  destruct (run_outcomes_origin _ _ _ _ _ _ _ _ files os _ Hos Hd)
    as (f & p & c & Hf & Hp & Hc & Hout).
  destruct (findings_of_passes _ _ _ _ _ _ f c Hc) as [Hs Hpass].
  destruct (outcome_inline_inv _ _ f p c d Hout)
    as (line_num & m & _ & _ & Hpos & Hpath & _).
  destruct (scan_inv_patch (split newline p)) as (_ & _ & Hent & _).
  destruct (Hent m (position d) Hpos) as (_ & _ & l & Hl & Hkept & _).
  exists f, p, m, l. by split_and!.
Qed.

(** X20.  One finding of the wrong shape ends the run: when the step
    for a finding that reaches the inner loop, for a file with a patch,
    raises from some state, the loop over the files raises, whatever
    comments exist, and [run_review] raises the same and submits
    nothing. *)
Theorem ill_shaped_finding_aborts_run
    (files : list File) (cs : list ReviewComment) (f : File)
    (c : json) (E : gmap string string) (st : Run) (e : exn) :
  f ∈ files → is_Some (truthy_patch f) → c ∈ findings_of f →
  process_comment E f st c = Raise e →
  ∃ e', review_loop files cs = Raise e' ∧ run_review files cs = Raise e'.
Proof.
  intros Hf [p Hp] Hc Hstep.
  rewrite (process_comment_closed repr float_closest E f p st c Hp) in Hstep.
  destruct (run_outcomes files) as [os|e'] eqn:Hos.
  - destruct (run_outcomes_elem _ _ _ _ _ _ _ _ files os f p c Hos Hf Hp Hc)
      as (o & Ho & _). by rewrite Ho in Hstep.
  - exists e'. split; [by apply review_loop_Raise|].
    by rewrite run_review_closed, Hos.
Qed.

End RunProperties.

(** ** The body of the review *)

Section BodyProperties.
Import Reviewer Orchestrator.

Lemma compose_body_skipped (st : Run) :
  skipped_files st ≠ [] →
  ∃ before rest,
    compose_body st = before +:+ bullets (skipped_files st) +:+ rest.
Proof.
  intros Hne. unfold compose_body.
  destruct (skipped_files st) as [|k ks] eqn:Hk; [done|].
  rewrite !add_bullets_app.
  destruct (reviewed_files st), (draft_review_comments st), (general_comments st);
    rewrite ?add_bullets_app, ?string_app_assoc;
    repeat (rewrite <- (string_app_assoc _ _ (bullets (k :: ks) +:+ _)));
    eexists _, _; reflexivity.
Qed.

(** X18.  Nothing is missing from the body of the review: every general
    comment stands in it word for word, and every skipped file has its
    line in it. *)
Theorem body_holds_general_and_skipped (st : Run) (g name : string) :
  (g ∈ general_comments st →
     ∃ before after, compose_body st = before +:+ g +:+ after)
  ∧ (name ∈ skipped_files st →
     ∃ before after,
       compose_body st = before +:+ "- " +:+ name +:+ nl +:+ after).
Proof.
  split.
  - intros Hg. unfold compose_body.
    destruct (general_comments st) as [|g0 gs] eqn:Hgs;
      [by apply not_elem_of_nil in Hg|].
    destruct (join_listed (nl +:+ nl) (g0 :: gs) g Hg) as (before & after & ->).
    eexists _, after. rewrite <- !string_app_assoc. reflexivity.
  - intros Hname.
    destruct (compose_body_skipped st) as (before & rest & ->).
    { intros Hnil. rewrite Hnil in Hname. by apply not_elem_of_nil in Hname. }
    destruct (bullets_listed (skipped_files st) name Hname) as (b & a & ->).
    exists (before +:+ b), (a +:+ rest). by rewrite !string_app_assoc.
Qed.

End BodyProperties.

(** ** The further properties at the inputs of the scenarios *)

Section FurtherWitnesses.
Import Mapper Filter Vocabulary Reviewer Orchestrator Scenario.

Local Abbreviation review_loop_at loads :=
  (review_loop fnmatch_glob config contents task answer loads no_repr no_float).
Local Abbreviation run_review_at loads :=
  (run_review fnmatch_glob config contents task answer loads no_repr no_float).

Lemma process_comment_returns_witness :
  (∃ st', process_comment no_repr no_float ∅ file_a run_init near_finding = Ok st')
  ∧ process_comment no_repr no_float ∅ file_a run_init (JStr "line 2")
    = Raise (TypeError "string indices must be integers, not 'str'")
  ∧ process_comment no_repr no_float ∅ file_a run_init bare_finding
    = Raise (KeyError "comment")
  ∧ ∃ position, getitem (calculate_line_positions patch_a) 2 = Ok position.
Proof.
  destruct (process_comment_returns no_repr no_float ∅ file_a run_init near_finding)
    as (Hshape & _ & _ & Hlookup).
  destruct (process_comment_returns no_repr no_float ∅ file_a run_init (JStr "line 2"))
    as (_ & Hline & _ & _).
  destruct (process_comment_returns no_repr no_float ∅ file_a run_init bare_finding)
    as (_ & _ & Htext & _).
  split_and!.
  - apply Hshape.
    exists {[ "line" := JInt 2; "comment" := JStr "Use a constant.";
              "suggestion" := JStr "X = 1" ]}, 2, (JStr "Use a constant.").
    split_and!; reflexivity.
  - apply Hline. reflexivity.
  - apply (Htext {[ "line" := JInt 2 ]} 2); [reflexivity..|]. by eexists.
  - apply (Hlookup patch_a 2 2); reflexivity.
Defined.

Lemma review_code_catches_all_witness :
  review_code task answer loads "print(1)" "a.py" = Ok [near_finding; far_finding]
  ∧ review_code task answer loads_fails "print(1)" "a.py" = Ok []
  ∧ review_code task (λ _, Raise (Exception "overloaded")) loads "print(1)" "a.py"
    = Ok [].
Proof.
  destruct (review_code_catches_all task answer loads "print(1)" "a.py")
    as (_ & _ & _ & Hlist).
  destruct (review_code_catches_all task answer loads_fails "print(1)" "a.py")
    as (_ & _ & Hloads & _).
  destruct (review_code_catches_all task (λ _, Raise (Exception "overloaded"))
              loads "print(1)" "a.py") as (_ & Hcall & _).
  split_and!.
  - apply (Hlist "[...]"); reflexivity.
  - apply (Hloads "[...]" (JSONDecodeError "Expecting value")); reflexivity.
  - apply (Hcall (Exception "overloaded")). reflexivity.
Defined.

Lemma findings_accounted_witness :
  (length (draft_review_comments first_run) + length (general_comments first_run)
   = length (changed ≫= findings_of fnmatch_glob config contents task answer loads))%nat.
Proof.
  destruct (findings_accounted fnmatch_glob config contents task answer loads
              no_repr no_float changed [] first_run) as (_ & Heq).
  - vm_compute. reflexivity.
  - apply Heq. reflexivity.
Defined.

Lemma review_loop_app_witness :
  ∃ st, review_loop_at loads ([file_a] ++ [file_a]) [] = Ok st
    ∧ length (draft_review_comments st) = 2%nat
    ∧ reviewed_files st = ["a.py"; "a.py"].
Proof.
  destruct (review_loop_app fnmatch_glob config contents task answer loads
              no_repr no_float [file_a] [file_a] []) as (Happ & _ & _).
  destruct (Happ {| draft_review_comments :=
                      [ {| path := "a.py"; position := 3; body := near_body |} ];
                    general_comments := [far_body];
                    skipped_files := []; reviewed_files := ["a.py"] |}
                 {| draft_review_comments :=
                      [ {| path := "a.py"; position := 3; body := near_body |} ];
                    general_comments := [far_body];
                    skipped_files := []; reviewed_files := ["a.py"] |})
    as (st & Hrun & Hd & _ & _ & Hr).
  - vm_compute. reflexivity.
  - vm_compute. reflexivity.
  - exists st. split; [exact Hrun|]. rewrite Hd, Hr. split; reflexivity.
Defined.

Lemma inline_comment_is_placed_witness :
  ∃ f p L line,
    f ∈ changed ∧ status f ≠ "removed"
    ∧ should_review_file fnmatch_glob config (filename f) = true
    ∧ "a.py" = filename f ∧ truthy_patch f = Some p
    ∧ calculate_line_positions p !! L = Some 3
    ∧ counted_lines (split newline p) !! Z.to_nat (3 - 1) = Some line
    ∧ startswith "-" line = false
    ∧ get_existing_comments [] !! comment_key "a.py" 3 = None.
Proof.
  apply (inline_comment_is_placed fnmatch_glob config contents task answer loads
           no_repr no_float changed [] first_run
           ltac:(vm_compute; reflexivity)
           {| path := "a.py"; position := 3; body := near_body |}).
  apply list_elem_of_In. simpl. tauto.
Defined.

Lemma ill_shaped_finding_aborts_run_witness :
  ∃ e', review_loop_at loads_bare changed [] = Raise e'
        ∧ run_review_at loads_bare changed [] = Raise e'.
Proof.
  apply (ill_shaped_finding_aborts_run fnmatch_glob config contents task answer
           loads_bare no_repr no_float changed [] file_a bare_finding ∅ run_init
           (KeyError "comment")).
  - apply list_elem_of_In. simpl. tauto.
  - by eexists.
  - vm_compute. apply list_elem_of_In. simpl. tauto.
  - vm_compute. reflexivity.
Defined.

Lemma body_holds_general_and_skipped_witness :
  let st := {| draft_review_comments := [];
               general_comments := [far_body];
               skipped_files := ["package.lock"];
               reviewed_files := ["a.py"] |} in
  (∃ before after,
     compose_body st = before +:+ far_body +:+ after)
  ∧ (∃ before after,
       compose_body st = before +:+ "- " +:+ "package.lock" +:+ nl +:+ after).
Proof.
  intros st.
  destruct (body_holds_general_and_skipped st far_body "package.lock") as [Hg Hs].
  split; [apply Hg|apply Hs]; apply list_elem_of_In; simpl; tauto.
Defined.

End FurtherWitnesses.
